(** * Electronic configurations on an equidistant ladder

    A shallow embedding of the notebook [electronic-configuration.ipynb]:
    given a number of electrons [n] and a total energy [e], the notebook
    lists every way of putting 0, 1 or 2 electrons on the levels of
    energy 0.5, 1.5, 2.5, ... so that the electrons add up to [n] and the
    energies to [e].

    Numbers.  [n], the loop tuples and the printed occupancies are Python
    integers: [Z].  [e] and the numpy arrays hold floats: they are
    modelled by exact rationals [Q].  Every float the notebook computes
    from a half-integer [e] is itself a half-integer or an integer of
    moderate size, on which binary floating point is exact, so that the
    rational model and the floats agree there. *)

From Stdlib Require Import ZArith QArith Qround List Bool Lia Lqa.
From Stdlib Require Import Sorting.Sorted Setoid Morphisms.
Import ListNotations.

Local Open Scope Z_scope.

(** ** The Python, numpy and sympy primitives the notebook calls *)

Module Python.

(** [int(x)] of a float: truncation toward zero. *)
Definition int (x : Q) : Z :=
  if Qle_bool 0 x then Qfloor x else Qceiling x.

(** [x % 1]: the floored remainder, a number of [0, 1). *)
Definition mod1 (x : Q) : Q := (x - inject_Z (Qfloor x))%Q.

(** [sum(t)] of a tuple of integers: a left fold from 0. *)
Definition sum (t : list Z) : Z := fold_left Z.add t 0.

(** [a < b] on floats. *)
Definition lt (a b : Q) : bool := negb (Qle_bool b a).

End Python.

Module Numpy.

(** [np.ones(k)]. *)
Definition ones (k : nat) : list Q := repeat 1%Q k.

(** [a * c], the array scaled by a number. *)
Definition scale (a : list Q) (c : Q) : list Q := map (fun x => (x * c)%Q) a.

(** [np.append(a, b)]. *)
Definition append (a b : list Q) : list Q := a ++ b.

(** [np.arange(start, stop)] with the default step 1:
    [ceil(stop - start)] values [start + i]. *)
Definition arange (start stop : Q) : list Q :=
  map (fun i => (start + inject_Z (Z.of_nat i))%Q)
      (seq 0 (Z.to_nat (Qceiling (stop - start)))).

(** [np.dot(a, b)] of two one-dimensional arrays.  numpy raises on
    arrays of different lengths; the notebook only ever passes arrays
    of one length (lemmas [dot_shape_*] below). *)
Fixpoint dot (a b : list Q) : Q :=
  match a, b with
  | x :: a', y :: b' => (x * y + dot a' b')%Q
  | _, _ => 0%Q
  end.

(** [a.astype(int)]. *)
Definition astype_int (a : list Q) : list Z := map Python.int a.

(** A tuple of integers seen as an array of floats. *)
Definition asarray (t : list Z) : list Q := map inject_Z t.

End Numpy.

Module Sympy.

(** [variations(seq, k, True)]: the one empty tuple for [k = 0], else
    [itertools.product(seq, repeat=k)], whose leftmost position varies
    slowest. *)
Fixpoint variations (seq : list Z) (k : nat) : list (list Z) :=
  match k with
  | O => [[]]
  | S k' => flat_map (fun x => map (cons x) (variations seq k')) seq
  end.

End Sympy.

(** ** The notebook, cell by cell

    The notebook's global variables become functions of the two inputs
    [n] and [e]; a variable that is assigned again gets a new name
    ([electron_states_ext], [energy_ext], [energy_res]). *)

(** What a cell can print. *)
Inductive printed : Type :=
| Invalid_values
| Ground_state_message
| Max_Min (mx mn : Z)
| Configuration (c : list Z)
| There_are (count : Z).

Inductive exn : Type := ValueError.

(** Cell In[2]: the parity test. *)
Definition parity_check (n : Z) (e : Q) : bool :=
  ((n mod 2 =? 0) && Qeq_bool (Python.mod1 e) 0)
  || ((n mod 2 =? 1) && Qeq_bool (Python.mod1 e) (1#2)).

Definition cell2 (n : Z) (e : Q) : list printed :=
  if parity_check n e then [] else [Invalid_values].

(** Cell In[3]: the ground-state ladder. *)
Definition electron_states (n : Z) : list Q :=
  let es := Numpy.scale (Numpy.ones (Z.to_nat (n / 2))) 2 in
  if negb (n mod 2 =? 0) then Numpy.append es [1%Q] else es.

Definition len (n : Z) : Z := Z.of_nat (length (electron_states n)).

(** Cell In[4]. *)
Definition energy (n : Z) : list Q :=
  Numpy.arange (1#2) ((1#2) + inject_Z (len n)).

(** Cell In[5]. *)
Definition ground_state_energy (n : Z) : Q :=
  Numpy.dot (electron_states n) (energy n).

Definition cell5 (n : Z) (e : Q) : list printed :=
  if Python.lt e (ground_state_energy n) then [Invalid_values]
  else if Qeq_bool e (ground_state_energy n) then [Ground_state_message]
  else [].

(** Cell In[6]. *)
Definition max_en (n : Z) (e : Q) : Z :=
  Python.int (inject_Z (len n) + (e - ground_state_energy n)).

Definition min_en (n : Z) (e : Q) : Z :=
  let m := Python.int (inject_Z (len n) - (e - ground_state_energy n)) in
  let m := if n mod 2 =? 1 then m - 1 else m in
  if m >? 0 then m else 0.

Definition cell6 (n : Z) (e : Q) : list printed :=
  [Max_Min (max_en n e) (min_en n e)].

(** Cell In[7]: [while len(electron_states) < max_en: append 0].  The
    loop runs at most [max_en] times. *)
Fixpoint extend (fuel : nat) (es : list Q) (mx : Z) : list Q :=
  match fuel with
  | O => es
  | S fuel' =>
      if Z.of_nat (length es) <? mx
      then extend fuel' (Numpy.append es [0%Q]) mx
      else es
  end.

Definition electron_states_ext (n : Z) (e : Q) : list Q :=
  extend (Z.to_nat (max_en n e)) (electron_states n) (max_en n e).

(** Cell In[8]. *)
Definition energy_ext (n : Z) (e : Q) : list Q :=
  Numpy.arange (1#2)
    ((1#2) + inject_Z (Z.of_nat (length (electron_states_ext n e)))).

(** Cell In[9]: [energy[:min_en]], or the array [[0]] when [min_en] is 0. *)
Definition temp_energy (n : Z) (e : Q) : list Q :=
  if min_en n e =? 0 then [0%Q]
  else firstn (Z.to_nat (min_en n e)) (energy_ext n e).

(** Cell In[10]: [energy[min_en:]]. *)
Definition energy_res (n : Z) (e : Q) : list Q :=
  skipn (Z.to_nat (min_en n e)) (energy_ext n e).

(** Cell In[11]: the search. *)
Definition updated_n (n : Z) (e : Q) : Z := n - min_en n e * 2.

Definition updated_e (n : Z) (e : Q) : Q :=
  (e - Numpy.dot (temp_energy n e)
         (Numpy.scale (Numpy.ones (length (temp_energy n e))) 2))%Q.

(** The test of the loop body, on the values the cell computed before
    the loop; Python's [and] does not evaluate its right operand when the
    left one is false. *)
Definition accepts (upd_n : Z) (en : list Q) (upd_e : Q) (i : list Z) : bool :=
  if Python.sum i =? upd_n
  then Qeq_bool (Numpy.dot (Numpy.asarray i) en) upd_e
  else false.

(** The line printed for an accepted tuple. *)
Definition line (mn : Z) (i : list Z) : list Z :=
  Numpy.astype_int
    (Numpy.append (Numpy.scale (Numpy.ones (Z.to_nat mn)) 2)
                  (Numpy.asarray i)).

(** One turn of the loop, on the state (lines printed so far, [count]). *)
Definition loop_body (mn upd_n : Z) (en : list Q) (upd_e : Q)
    (st : list printed * Z) (i : list Z) : list printed * Z :=
  if accepts upd_n en upd_e i
  then (fst st ++ [Configuration (line mn i)], snd st + 1)
  else st.

(** The number of levels the search runs over: [len(energy)]. *)
Definition residual_levels (n : Z) (e : Q) : nat := length (energy_res n e).

Definition cell11 (n : Z) (e : Q) : list printed :=
  let mn := min_en n e in
  let en := energy_res n e in
  let upd_n := updated_n n e in
  let upd_e := updated_e n e in
  let st := fold_left (loop_body mn upd_n en upd_e)
              (Sympy.variations [0; 1; 2] (length en)) ([], 0) in
  fst st ++ [There_are (snd st)].

(** The whole notebook, run from top to bottom: what it prints, and the
    exception that stopped it, if any.  [np.ones] raises [ValueError] on
    a negative length, in cell In[3], after cell In[2] has printed. *)
Definition notebook (n : Z) (e : Q) : list printed * option exn :=
  if n / 2 <? 0 then (cell2 n e, Some ValueError)
  else (cell2 n e ++ cell5 n e ++ cell6 n e ++ cell11 n e, None).

(** Reading the output. *)
Definition configurations_of (out : list printed) : list (list Z) :=
  flat_map (fun p => match p with Configuration c => [c] | _ => [] end) out.

Definition counts_of (out : list printed) : list Z :=
  flat_map (fun p => match p with There_are k => [k] | _ => [] end) out.

Definition emitted (n : Z) (e : Q) : list (list Z) :=
  configurations_of (fst (notebook n e)).

Definition reported (n : Z) (e : Q) : list Z :=
  counts_of (fst (notebook n e)).


(** ** The vocabulary of the specification *)

(** An occupancy is 0, 1 or 2. *)
Definition occupancy (x : Z) : Prop := x = 0 \/ x = 1 \/ x = 2.

Definition occupancy_sequence (c : list Z) : Prop := Forall occupancy c.

(** Level [i] has energy [i + 0.5]. *)
Definition level_energy (i : nat) : Q := (inject_Z (Z.of_nat i) + (1#2))%Q.

(** The energy of the occupancies [c] of the levels [i], [i+1], ... *)
Fixpoint energy_from (i : nat) (c : list Z) : Q :=
  match c with
  | [] => 0%Q
  | x :: c' => (inject_Z x * level_energy i + energy_from (S i) c')%Q
  end.

Definition total_energy (c : list Z) : Q := energy_from 0 c.

(** The ground state: [n/2] full levels, and one electron more on the
    next level when [n] is odd. *)
Definition ground_state (n : Z) : list Z :=
  repeat 2 (Z.to_nat (n / 2)) ++ (if n mod 2 =? 0 then [] else [1]).

(** The inputs the notebook accepts without a warning. *)
Definition valid_input (n : Z) (e : Q) : Prop :=
  0 <= n /\ parity_check n e = true
  /\ Python.lt e (ground_state_energy n) = false.

(** A configuration for [(n, e)]: occupancies of the levels
    [0 .. max_en - 1] with [n] electrons and energy [e]. *)
Definition is_configuration (n : Z) (e : Q) (c : list Z) : Prop :=
  length c = Z.to_nat (max_en n e) /\ occupancy_sequence c
  /\ Python.sum c = n /\ (total_energy c == e)%Q.

(** The number of levels of the specification, which does not look at
    the notebook's [max_en]: the length of the ground-state ladder plus
    the whole part of what [e] has above the energy of the ground
    state. *)
Definition max_level (n : Z) (e : Q) : nat :=
  (length (ground_state n)
   + Z.to_nat (Qfloor (e - total_energy (ground_state n))))%nat.

(** A configuration of the specification for [(n, e)]: occupancies of
    the levels [0 .. max_level - 1] with [n] electrons and energy [e]. *)
Definition is_full_configuration (n : Z) (e : Q) (c : list Z) : Prop :=
  length c = max_level n e /\ occupancy_sequence c
  /\ Python.sum c = n /\ (total_energy c == e)%Q.

(** The energies on which the floats of the notebook are exact: below
    [2 ^ 52] every half-integer is a binary64 number, and so are the
    sums and differences the cells form from a valid input, which do
    not exceed [e] by more than the length of the ladder. *)
Definition binary64_exact (e : Q) : Prop := (e < inject_Z (2 ^ 52))%Q.

(** The search without the frozen prefix: every tuple over all the
    [max_en] levels, kept when it has [n] electrons and energy [e]. *)
Definition full_enumeration (n : Z) (e : Q) : list (list Z) :=
  filter (fun c => (Python.sum c =? n) && Qeq_bool (total_energy c) e)
         (Sympy.variations [0; 1; 2] (Z.to_nat (max_en n e))).

(** The lexicographic order on tuples, read from the left. *)
Inductive lex_lt : list Z -> list Z -> Prop :=
| lex_lt_nil : forall y l, lex_lt [] (y :: l)
| lex_lt_head : forall x y l l', x < y -> lex_lt (x :: l) (y :: l')
| lex_lt_tail : forall x l l', lex_lt l l' -> lex_lt (x :: l) (x :: l').

(** The parity rule of the specification: [e] is an integer for an even
    [n], an integer plus one half for an odd [n]. *)
Definition parity_consistent (n : Z) (e : Q) : Prop :=
  (Z.Even n /\ exists z : Z, (e == inject_Z z)%Q)
  \/ (Z.Odd n /\ exists z : Z, (e == inject_Z z + (1#2))%Q).

(** ** Auxiliary definitions of the proofs *)

(** Twice the energy of [c] on the levels [o], [o+1], ...: the integer
    the proofs compute with. *)
Fixpoint weight2 (o : Z) (c : list Z) : Z :=
  match c with
  | [] => 0
  | x :: c' => x * (2 * o + 1) + weight2 (o + 1) c'
  end.

(** [z / 2] as a rational. *)
Definition half (z : Z) : Q := z # 2.

(** What a tuple over the first [k] levels and above lacks or has in
    excess, against the filling of the levels below [k], weighted by the
    distance to [k]: twice the energy above the ground state. *)
Fixpoint deficit (k o : Z) (c : list Z) : Z :=
  match c with
  | [] => 0
  | x :: c' =>
      (if o <? k then (2 - x) * (2 * (k - o)) else x * (2 * (o - k)))
      + deficit k (o + 1) c'
  end.

(** The level energies as the notebook builds them. *)
Definition ladder (i : nat) : Q := ((1#2) + inject_Z (Z.of_nat i))%Q.

(** Twice the ground-state energy. *)
Definition ground2 (n : Z) : Z :=
  2 * (n / 2) * (n / 2) + (n mod 2) * (2 * (n / 2) + 1).

(** A valid input lies a whole number [x] of steps above the ground
    state. *)
Definition excess (n : Z) (e : Q) (x : Z) : Prop :=
  0 <= n /\ 0 <= x /\ (e == half (ground2 n + 2 * x))%Q.

(** The tuples the loop accepts, in the order it meets them. *)
Definition tails (n : Z) (e : Q) : list (list Z) :=
  filter (accepts (updated_n n e) (energy_res n e) (updated_e n e))
         (Sympy.variations [0; 1; 2] (residual_levels n e)).

(** The frozen prefix: [min_en] levels with two electrons each. *)
Definition frozen (n : Z) (e : Q) : list Z := repeat 2 (Z.to_nat (min_en n e)).

(** The ground state on [x] more levels, with its topmost electron
    [x] levels higher. *)
Definition promoted (n x : Z) : list Z :=
  if n mod 2 =? 0
  then if x =? 0 then repeat 2 (Z.to_nat (n / 2))
       else repeat 2 (Z.to_nat (n / 2 - 1))
            ++ [1] ++ repeat 0 (Z.to_nat (x - 1)) ++ [1]
  else repeat 2 (Z.to_nat (n / 2)) ++ repeat 0 (Z.to_nat x) ++ [1].

(** ** Arithmetic on halves *)

(** [lia] is to know the quotients and remainders by 2. *)
Ltac Zify.zify_post_hook ::= Z.to_euclidean_division_equations.

(** Turns an equation or inequality of fractions into one of integers. *)
Ltac fractions :=
  unfold half, Qeq, Qle, Qlt, Qminus, Qplus, Qopp, Qmult, inject_Z;
  cbn [Qnum Qden]; try split; intros; lia.

Lemma half_eq (a b : Z) : (half a == half b)%Q <-> a = b.
Proof. fractions. Qed.

Lemma half_le (a b : Z) : (half a <= half b)%Q <-> a <= b.
Proof. fractions. Qed.

Lemma half_nonneg (a : Z) : 0 <= a -> (0 <= half a)%Q.
Proof. fractions. Qed.

Lemma half_inject (z : Z) : (inject_Z z == half (2 * z))%Q.
Proof. fractions. Qed.

Lemma half_plus (a b : Z) : (half a + half b == half (a + b))%Q.
Proof. fractions. Qed.

Lemma half_minus (a b : Z) : (half a - half b == half (a - b))%Q.
Proof. fractions. Qed.

Lemma half_scale (x a : Z) : (inject_Z x * half a == half (x * a))%Q.
Proof. fractions. Qed.

(** ** The primitives *)

Lemma sum_acc (t : list Z) (a : Z) : fold_left Z.add t a = a + Python.sum t.
Proof.
  unfold Python.sum. revert a.
  induction t as [|x t IH]; intro a; simpl.
  - lia.
  - rewrite (IH (a + x)), (IH x). lia.
Qed.

Lemma sum_nil : Python.sum [] = 0.
Proof. reflexivity. Qed.

Lemma sum_cons (x : Z) (t : list Z) : Python.sum (x :: t) = x + Python.sum t.
Proof. unfold Python.sum at 1. simpl. apply sum_acc. Qed.

Lemma sum_app (s t : list Z) :
  Python.sum (s ++ t) = Python.sum s + Python.sum t.
Proof.
  induction s as [|x s IH]; cbn [app].
  - rewrite sum_nil. lia.
  - rewrite !sum_cons, IH. lia.
Qed.

Lemma sum_repeat (x : Z) (k : nat) :
  Python.sum (repeat x k) = x * Z.of_nat k.
Proof.
  induction k as [|k IH].
  - cbn [repeat]. rewrite sum_nil. lia.
  - cbn [repeat]. rewrite sum_cons, IH. lia.
Qed.

Lemma int_inject (q : Q) (z : Z) : (q == inject_Z z)%Q -> Python.int q = z.
Proof.
  intro H. unfold Python.int.
  destruct (Qle_bool 0 q).
  - rewrite (Qfloor_comp _ _ H). apply Qfloor_Z.
  - rewrite (Qceiling_comp _ _ H). apply Qceiling_Z.
Qed.

Lemma int_Qeq (p q : Q) : (p == q)%Q -> Python.int p = Python.int q.
Proof.
  intro H. unfold Python.int.
  rewrite (Qleb_comp 0%Q 0%Q (Qeq_refl 0%Q) p q H).
  now rewrite (Qfloor_comp _ _ H), (Qceiling_comp _ _ H).
Qed.

Lemma arange_half (k : nat) :
  Numpy.arange (1#2) ((1#2) + inject_Z (Z.of_nat k)) = map ladder (seq 0 k).
Proof.
  unfold Numpy.arange.
  assert (E : ((1#2) + inject_Z (Z.of_nat k) - (1#2) == inject_Z (Z.of_nat k))%Q)
    by ring.
  rewrite (Qceiling_comp _ _ E), Qceiling_Z, Nat2Z.id. reflexivity.
Qed.

Lemma ladder_half (i : nat) : (ladder i == half (2 * Z.of_nat i + 1))%Q.
Proof. unfold ladder; fractions. Qed.

Lemma level_energy_half (i : nat) :
  (level_energy i == half (2 * Z.of_nat i + 1))%Q.
Proof. unfold level_energy; fractions. Qed.

Lemma dot_asarray (c : list Z) (o : nat) :
  (Numpy.dot (Numpy.asarray c) (map ladder (seq o (length c)))
   == half (weight2 (Z.of_nat o) c))%Q.
Proof.
  revert o. induction c as [|x c IH]; intro o; simpl.
  - reflexivity.
  - rewrite IH, ladder_half, half_scale, half_plus.
    apply half_eq. f_equal. f_equal. lia.
Qed.

Lemma energy_from_half (c : list Z) (i : nat) :
  (energy_from i c == half (weight2 (Z.of_nat i) c))%Q.
Proof.
  revert i. induction c as [|x c IH]; intro i; simpl.
  - reflexivity.
  - rewrite IH, level_energy_half, half_scale, half_plus.
    apply half_eq. f_equal. f_equal. lia.
Qed.

Lemma total_energy_half (c : list Z) :
  (total_energy c == half (weight2 0 c))%Q.
Proof. apply (energy_from_half c 0). Qed.

Lemma weight2_app (s t : list Z) (o : Z) :
  weight2 o (s ++ t) = weight2 o s + weight2 (o + Z.of_nat (length s)) t.
Proof.
  revert o. induction s as [|x s IH]; intro o; simpl length; simpl app.
  - simpl. f_equal. lia.
  - cbn [weight2]. rewrite IH. replace (o + 1 + Z.of_nat (length s))
      with (o + Z.of_nat (S (length s))) by lia. lia.
Qed.

Lemma weight2_repeat2 (k : nat) (o : Z) :
  weight2 o (repeat 2 k) = 4 * o * Z.of_nat k + 2 * Z.of_nat k * Z.of_nat k.
Proof.
  revert o. induction k as [|k IH]; intro o.
  - simpl. lia.
  - cbn [repeat weight2]. rewrite IH. lia.
Qed.

(** ** The normalizer (cells In[2] to In[10]) *)

Lemma electron_states_ground (n : Z) :
  electron_states n = Numpy.asarray (ground_state n).
Proof.
  unfold electron_states, ground_state, Numpy.asarray, Numpy.scale,
    Numpy.ones, Numpy.append.
  rewrite map_app, !map_repeat.
  destruct (n mod 2 =? 0); cbn [negb map]; [now rewrite app_nil_r | reflexivity].
Qed.

Lemma length_ground_state (n : Z) :
  0 <= n -> Z.of_nat (length (ground_state n)) = n / 2 + n mod 2.
Proof.
  intro Hn. unfold ground_state. rewrite length_app, repeat_length.
  destruct (Z.eqb_spec (n mod 2) 0) as [E|E]; cbn [length]; lia.
Qed.

Lemma len_eq (n : Z) : 0 <= n -> len n = n / 2 + n mod 2.
Proof.
  intro Hn. unfold len.
  rewrite electron_states_ground. unfold Numpy.asarray.
  rewrite length_map. now apply length_ground_state.
Qed.

Lemma weight2_ground_state (n : Z) :
  0 <= n -> weight2 0 (ground_state n) = ground2 n.
Proof.
  intro Hn. unfold ground_state, ground2.
  rewrite weight2_app, weight2_repeat2, repeat_length.
  destruct (Z.eqb_spec (n mod 2) 0) as [E|E]; cbn [weight2].
  - rewrite E. lia.
  - assert (n mod 2 = 1) as -> by lia. lia.
Qed.

Lemma sum_ground_state (n : Z) : 0 <= n -> Python.sum (ground_state n) = n.
Proof.
  intro Hn. unfold ground_state. rewrite sum_app, sum_repeat.
  destruct (Z.eqb_spec (n mod 2) 0) as [E|E].
  - rewrite sum_nil. lia.
  - rewrite sum_cons, sum_nil. lia.
Qed.

Lemma ground_state_energy_half (n : Z) :
  0 <= n -> (ground_state_energy n == half (ground2 n))%Q.
Proof.
  intro Hn. unfold ground_state_energy, energy, len.
  rewrite arange_half, electron_states_ground.
  unfold Numpy.asarray at 2. rewrite length_map, dot_asarray.
  apply half_eq. now apply weight2_ground_state.
Qed.

(** The ground-state energy of the notebook is the energy of the ground
    state. *)
Lemma ground_state_energy_total (n : Z) :
  0 <= n -> (ground_state_energy n == total_energy (ground_state n))%Q.
Proof.
  intro Hn. rewrite ground_state_energy_half, total_energy_half by assumption.
  apply half_eq. symmetry. now apply weight2_ground_state.
Qed.

(** *** The parity test *)

Lemma Qfloor_half_even (z : Z) : Qfloor (half (2 * z)) = z.
Proof. unfold half, Qfloor. lia. Qed.

Lemma Qfloor_half_odd (z : Z) : Qfloor (half (2 * z + 1)) = z.
Proof. unfold half, Qfloor. lia. Qed.

Lemma mod1_integer (e : Q) :
  Qeq_bool (Python.mod1 e) 0 = true <-> exists z : Z, (e == inject_Z z)%Q.
Proof.
  rewrite Qeq_bool_iff. unfold Python.mod1. split.
  - intro H. exists (Qfloor e). lra.
  - intros [z H]. rewrite (Qfloor_comp _ _ H), Qfloor_Z. lra.
Qed.

Lemma mod1_half (e : Q) :
  Qeq_bool (Python.mod1 e) (1#2) = true
  <-> exists z : Z, (e == inject_Z z + (1#2))%Q.
Proof.
  rewrite Qeq_bool_iff. unfold Python.mod1. split.
  - intro H. exists (Qfloor e). lra.
  - intros [z H].
    assert (H' : (e == half (2 * z + 1))%Q) by (rewrite H; fractions).
    rewrite (Qfloor_comp _ _ H'), Qfloor_half_odd. lra.
Qed.

Lemma mod2_Even (n : Z) : n mod 2 = 0 <-> Z.Even n.
Proof.
  split; [intro H; exists (n / 2); lia | intros [m ->]; lia].
Qed.

Lemma mod2_Odd (n : Z) : n mod 2 = 1 <-> Z.Odd n.
Proof.
  split; [intro H; exists (n / 2); lia | intros [m ->]; lia].
Qed.

Lemma parity_check_consistent (n : Z) (e : Q) :
  parity_check n e = true <-> parity_consistent n e.
Proof.
  unfold parity_check, parity_consistent.
  rewrite orb_true_iff, !andb_true_iff, mod1_integer, mod1_half.
  rewrite !Z.eqb_eq.
  now rewrite mod2_Even, mod2_Odd.
Qed.

Lemma valid_excess (n : Z) (e : Q) :
  valid_input n e -> exists x : Z, excess n e x.
Proof.
  intros (Hn & Hp & Hg).
  unfold Python.lt in Hg. apply negb_false_iff, Qle_bool_iff in Hg.
  rewrite ground_state_energy_half in Hg by assumption.
  unfold parity_check in Hp.
  apply orb_true_iff in Hp.
  destruct Hp as [Hp|Hp]; apply andb_true_iff in Hp; destruct Hp as [Hr Hp];
    apply Z.eqb_eq in Hr.
  - apply mod1_integer in Hp. destruct Hp as [z Hz].
    rewrite Hz, half_inject in Hg. apply (proj1 (half_le _ _)) in Hg.
    exists (z - (n / 2) * (n / 2)). unfold excess, ground2 in *.
    rewrite Hr in *. repeat split; [assumption | lia |].
    rewrite Hz, half_inject. apply half_eq. lia.
  - apply mod1_half in Hp. destruct Hp as [z Hz].
    assert (Hz' : (e == half (2 * z + 1))%Q) by (rewrite Hz; fractions).
    rewrite Hz' in Hg. apply (proj1 (half_le _ _)) in Hg.
    exists (z - (n / 2) * (n / 2) - n / 2). unfold excess, ground2 in *.
    rewrite Hr in *. repeat split; [assumption | lia |].
    rewrite Hz'. apply half_eq. lia.
Qed.

Lemma excess_valid (n : Z) (e : Q) (x : Z) : excess n e x -> valid_input n e.
Proof.
  intros (Hn & Hx & He). repeat split; [assumption | |].
  - apply parity_check_consistent.
    assert (Hr : n mod 2 = 0 \/ n mod 2 = 1) by lia.
    unfold parity_consistent, ground2 in *.
    destruct Hr as [Hr|Hr]; rewrite Hr in He; [left | right]; split.
    + now apply mod2_Even.
    + exists ((n / 2) * (n / 2) + x). rewrite He, half_inject.
      apply half_eq. lia.
    + now apply mod2_Odd.
    + exists ((n / 2) * (n / 2) + n / 2 + x). rewrite He. fractions.
  - unfold Python.lt. apply negb_false_iff, Qle_bool_iff.
    rewrite ground_state_energy_half, He by assumption.
    apply half_le. lia.
Qed.

(** *** The while loop of cell In[7] *)

Lemma extend_length (fuel : nat) :
  forall (es : list Q) (mx : Z),
    (Z.to_nat (mx - Z.of_nat (length es)) <= fuel)%nat ->
    Z.of_nat (length (extend fuel es mx)) = Z.max (Z.of_nat (length es)) mx.
Proof.
  induction fuel as [|fuel IH]; intros es mx Hf; cbn [extend].
  - lia.
  - destruct (Z.ltb_spec (Z.of_nat (length es)) mx) as [Hlt|Hge]; [|lia].
    rewrite IH; unfold Numpy.append; rewrite length_app; cbn [length]; lia.
Qed.

(** The loop has left when the fuel is spent: its test is false on the
    result. *)
Lemma extend_exit (n : Z) (e : Q) :
  (Z.of_nat (length (electron_states_ext n e)) <? max_en n e) = false.
Proof.
  unfold electron_states_ext. rewrite extend_length by lia.
  apply Z.ltb_ge. lia.
Qed.

Lemma dot_ladder_twos (m o : nat) :
  (Numpy.dot (map ladder (seq o m)) (Numpy.scale (Numpy.ones m) 2)
   == half (4 * Z.of_nat o * Z.of_nat m + 2 * Z.of_nat m * Z.of_nat m))%Q.
Proof.
  revert o. induction m as [|m IH]; intro o.
  - cbn [seq map Numpy.ones repeat Numpy.scale Numpy.dot]. fractions.
  - cbn [seq map Numpy.ones repeat Numpy.scale Numpy.dot].
    change (map (fun x : Q => x * 2) (repeat 1 m))%Q
      with (Numpy.scale (Numpy.ones m) 2).
    rewrite IH, ladder_half.
    assert (E : (half (2 * Z.of_nat o + 1) * (1 * 2)
                 == half (4 * Z.of_nat o + 2))%Q) by fractions.
    rewrite E, half_plus. apply half_eq. lia.
Qed.

Lemma firstn_seq_le (m : nat) :
  forall s k : nat, (m <= k)%nat -> firstn m (seq s k) = seq s m.
Proof.
  induction m as [|m IH]; intros s k Hk.
  - reflexivity.
  - destruct k as [|k]; [lia|].
    cbn [seq firstn]. f_equal. apply IH. lia.
Qed.

(** *** The reduced problem of a valid input *)

Section Reduced.

Variables (n : Z) (e : Q) (x : Z).
Hypothesis Hex : excess n e x.

Let Hn : 0 <= n := proj1 Hex.
Let Hx : 0 <= x := proj1 (proj2 Hex).
Let He : (e == half (ground2 n + 2 * x))%Q := proj2 (proj2 Hex).

Lemma excess_energy : (e - ground_state_energy n == inject_Z x)%Q.
Proof.
  rewrite He, ground_state_energy_half, half_minus, half_inject by exact Hn.
  apply half_eq. lia.
Qed.

Lemma max_en_eq : max_en n e = len n + x.
Proof.
  unfold max_en. apply int_inject.
  rewrite excess_energy, <- inject_Z_plus. reflexivity.
Qed.

Lemma min_en_eq : min_en n e = Z.max 0 (n / 2 - x).
Proof.
  unfold min_en.
  rewrite (int_inject _ (len n - x)).
  - rewrite (len_eq n Hn).
    destruct (Z.eqb_spec (n mod 2) 1);
      destruct (Z.gtb_spec (n / 2 + n mod 2 - x - 1) 0);
      destruct (Z.gtb_spec (n / 2 + n mod 2 - x) 0); lia.
  - rewrite excess_energy. unfold Zminus.
    rewrite inject_Z_plus, inject_Z_opp. reflexivity.
Qed.

Lemma min_en_bounds : 0 <= min_en n e <= len n /\ len n <= max_en n e.
Proof.
  rewrite min_en_eq, max_en_eq, (len_eq n Hn). lia.
Qed.

Lemma energy_ext_eq :
  energy_ext n e = map ladder (seq 0 (Z.to_nat (max_en n e))).
Proof.
  unfold energy_ext. rewrite arange_half. f_equal. f_equal.
  unfold electron_states_ext.
  pose proof (extend_length (Z.to_nat (max_en n e)) (electron_states n)
                (max_en n e)) as HL.
  fold (len n) in HL. pose proof min_en_bounds. lia.
Qed.

Lemma energy_res_eq :
  energy_res n e
  = map ladder (seq (Z.to_nat (min_en n e))
                    (Z.to_nat (max_en n e) - Z.to_nat (min_en n e))).
Proof.
  unfold energy_res. rewrite energy_ext_eq, skipn_map, skipn_seq.
  reflexivity.
Qed.

Lemma residual_levels_eq :
  residual_levels n e = Z.to_nat (max_en n e - min_en n e).
Proof.
  unfold residual_levels. rewrite energy_res_eq, length_map, length_seq.
  pose proof min_en_bounds. lia.
Qed.

(** The frozen levels, each with two electrons, hold the energy
    [min_en * min_en]; the array [[0]] that stands for no frozen
    level holds none. *)
Lemma frozen_energy :
  (Numpy.dot (temp_energy n e)
     (Numpy.scale (Numpy.ones (length (temp_energy n e))) 2)
   == half (2 * min_en n e * min_en n e))%Q.
Proof.
  unfold temp_energy.
  destruct (Z.eqb_spec (min_en n e) 0) as [E|E].
  - rewrite E. reflexivity.
  - pose proof min_en_bounds as HB.
    rewrite energy_ext_eq, firstn_map, firstn_seq_le by lia.
    rewrite length_map, length_seq, dot_ladder_twos.
    apply half_eq. lia.
Qed.

Lemma updated_e_eq :
  (updated_e n e
   == half (ground2 n + 2 * x - 2 * min_en n e * min_en n e))%Q.
Proof.
  unfold updated_e. rewrite frozen_energy.
  generalize (min_en n e). intro m.
  rewrite He, half_minus. reflexivity.
Qed.

End Reduced.

(** ** The enumerator (cell In[11]) *)

Lemma loop_fold (mn upd_n : Z) (en : list Q) (upd_e : Q) (vs : list (list Z)) :
  forall (out : list printed) (count : Z),
    fold_left (loop_body mn upd_n en upd_e) vs (out, count)
    = (out ++ map (fun i => Configuration (line mn i))
                  (filter (accepts upd_n en upd_e) vs),
       count + Z.of_nat (length (filter (accepts upd_n en upd_e) vs))).
Proof.
  induction vs as [|i vs IH]; intros out count; cbn [fold_left filter].
  - cbn [map length]. rewrite app_nil_r. f_equal. lia.
  - unfold loop_body at 2. destruct (accepts upd_n en upd_e i); cbn [fst snd].
    + rewrite IH. cbn [map length]. rewrite <- app_assoc. cbn [app].
      f_equal. lia.
    + apply IH.
Qed.

Lemma line_eq (mn : Z) (i : list Z) : line mn i = repeat 2 (Z.to_nat mn) ++ i.
Proof.
  unfold line, Numpy.astype_int, Numpy.append, Numpy.scale, Numpy.ones,
    Numpy.asarray.
  rewrite map_app, !map_repeat, map_map. f_equal.
  rewrite <- (map_id i) at 2. apply map_ext.
  intro z. now apply int_inject.
Qed.

Lemma configurations_of_app (a b : list printed) :
  configurations_of (a ++ b) = configurations_of a ++ configurations_of b.
Proof. apply flat_map_app. Qed.

Lemma counts_of_app (a b : list printed) :
  counts_of (a ++ b) = counts_of a ++ counts_of b.
Proof. apply flat_map_app. Qed.

Lemma configurations_of_lines (f : list Z -> list Z) (l : list (list Z)) :
  configurations_of (map (fun i => Configuration (f i)) l) = map f l.
Proof.
  induction l as [|i l IH]; [reflexivity|].
  cbn [map]. change (f i :: map f l) with ([f i] ++ map f l).
  rewrite <- IH. reflexivity.
Qed.

Lemma counts_of_lines (f : list Z -> list Z) (l : list (list Z)) :
  counts_of (map (fun i => Configuration (f i)) l) = [].
Proof. induction l as [|i l IH]; [reflexivity | exact IH]. Qed.

Lemma cell2_quiet (n : Z) (e : Q) :
  configurations_of (cell2 n e) = [] /\ counts_of (cell2 n e) = [].
Proof. unfold cell2. destruct (parity_check n e); split; reflexivity. Qed.

Lemma cell5_quiet (n : Z) (e : Q) :
  configurations_of (cell5 n e) = [] /\ counts_of (cell5 n e) = [].
Proof.
  unfold cell5. destruct (Python.lt e (ground_state_energy n));
    [|destruct (Qeq_bool e (ground_state_energy n))]; split; reflexivity.
Qed.

Lemma cell11_eq (n : Z) (e : Q) :
  cell11 n e
  = map (fun i => Configuration (line (min_en n e) i)) (tails n e)
    ++ [There_are (Z.of_nat (length (tails n e)))].
Proof.
  unfold cell11. cbv zeta. rewrite loop_fold. reflexivity.
Qed.

Lemma notebook_runs (n : Z) (e : Q) :
  0 <= n ->
  notebook n e = (cell2 n e ++ cell5 n e ++ cell6 n e ++ cell11 n e, None).
Proof.
  intro Hn. unfold notebook.
  destruct (Z.ltb_spec (n / 2) 0) as [H|H]; [lia | reflexivity].
Qed.

(** What the notebook lists is the frozen prefix before each accepted
    tuple, and what it counts is the accepted tuples. *)
Lemma emitted_eq (n : Z) (e : Q) :
  0 <= n -> emitted n e = map (app (frozen n e)) (tails n e).
Proof.
  intro Hn. unfold emitted. rewrite notebook_runs by assumption. cbn [fst].
  rewrite !configurations_of_app, cell11_eq, configurations_of_app.
  rewrite (proj1 (cell2_quiet n e)), (proj1 (cell5_quiet n e)).
  rewrite configurations_of_lines. cbn [app cell6 configurations_of flat_map].
  rewrite app_nil_r. apply map_ext. intro i. apply line_eq.
Qed.

Lemma reported_eq (n : Z) (e : Q) :
  0 <= n -> reported n e = [Z.of_nat (length (tails n e))].
Proof.
  intro Hn. unfold reported. rewrite notebook_runs by assumption. cbn [fst].
  rewrite !counts_of_app, cell11_eq, counts_of_app.
  rewrite (proj2 (cell2_quiet n e)), (proj2 (cell5_quiet n e)).
  rewrite counts_of_lines. reflexivity.
Qed.

Lemma reported_emitted (n : Z) (e : Q) :
  0 <= n -> reported n e = [Z.of_nat (length (emitted n e))].
Proof.
  intro Hn. rewrite reported_eq, emitted_eq, length_map by assumption.
  reflexivity.
Qed.

(** *** The tuples of [variations] *)

Lemma in_variations (seq : list Z) (k : nat) (c : list Z) :
  In c (Sympy.variations seq k)
  <-> length c = k /\ Forall (fun x => In x seq) c.
Proof.
  revert c. induction k as [|k IH]; intro c; cbn [Sympy.variations].
  - split.
    + intros [<-|[]]. split; [reflexivity | constructor].
    + intros [H _]. left. symmetry. now apply length_zero_iff_nil.
  - rewrite in_flat_map. split.
    + intros (x & Hx & Hc). apply in_map_iff in Hc.
      destruct Hc as (c' & <- & Hc'). apply IH in Hc'.
      destruct Hc' as [Hl Hf]. split; [cbn [length]; lia | now constructor].
    + intros [Hl Hf]. destruct c as [|x c']; [discriminate|].
      inversion Hf as [|? ? Hx Hf']; subst.
      exists x. split; [assumption|].
      apply in_map. apply IH. split; [now injection Hl | assumption].
Qed.

Lemma occupancy_in (x : Z) : In x [0; 1; 2] <-> occupancy x.
Proof. unfold occupancy. cbn [In]. intuition congruence. Qed.

Lemma in_variations_occ (k : nat) (c : list Z) :
  In c (Sympy.variations [0; 1; 2] k)
  <-> length c = k /\ occupancy_sequence c.
Proof.
  rewrite in_variations. unfold occupancy_sequence.
  rewrite !Forall_forall.
  split; intros [Hl Hf]; (split; [assumption|]); intros x Hx;
    apply occupancy_in; now apply Hf.
Qed.

Lemma NoDup_map_cons (x : Z) (l : list (list Z)) :
  NoDup l -> NoDup (map (cons x) l).
Proof.
  intro H. induction H as [|c l Hc H IH]; cbn [map]; constructor.
  - intro Hin. apply in_map_iff in Hin. destruct Hin as (c' & E & Hc').
    injection E as ->. contradiction.
  - exact IH.
Qed.

Lemma NoDup_app_disjoint {A : Type} (l1 l2 : list A) :
  NoDup l1 -> NoDup l2 -> (forall a, In a l1 -> ~ In a l2) -> NoDup (l1 ++ l2).
Proof.
  intros H1 H2 Hd. induction H1 as [|a l1 Ha H1 IH]; [assumption|].
  cbn [app]. constructor.
  - rewrite in_app_iff. intros [H|H]; [contradiction|].
    apply (Hd a); [now left | assumption].
  - apply IH. intros b Hb. apply Hd. now right.
Qed.

Lemma NoDup_flat_map_cons (V : list (list Z)) (seq : list Z) :
  NoDup V -> NoDup seq -> NoDup (flat_map (fun x => map (cons x) V) seq).
Proof.
  intros HV Hs. induction Hs as [|x seq Hx Hs IHs]; cbn [flat_map];
    [constructor|].
  apply NoDup_app_disjoint.
  - now apply NoDup_map_cons.
  - exact IHs.
  - intros c Hc Hc'. apply in_map_iff in Hc. destruct Hc as (c1 & <- & _).
    apply in_flat_map in Hc'. destruct Hc' as (y & Hy & Hc').
    apply in_map_iff in Hc'. destruct Hc' as (c2 & E & _).
    injection E as -> _. contradiction.
Qed.

Lemma NoDup_variations (seq : list Z) (k : nat) :
  NoDup seq -> NoDup (Sympy.variations seq k).
Proof.
  intro Hs. induction k as [|k IH]; cbn [Sympy.variations].
  - constructor; [intros [] | constructor].
  - now apply NoDup_flat_map_cons.
Qed.

Lemma NoDup_012 : NoDup [0; 1; 2].
Proof.
  repeat constructor; cbn [In]; intuition discriminate.
Qed.

(** *** The arrays given to [np.dot] have one length *)

Lemma dot_shape_ground (n : Z) :
  length (electron_states n) = length (energy n).
Proof.
  unfold energy, len. rewrite arange_half, length_map, length_seq.
  reflexivity.
Qed.

Lemma dot_shape_frozen (n : Z) (e : Q) :
  length (temp_energy n e)
  = length (Numpy.scale (Numpy.ones (length (temp_energy n e))) 2).
Proof.
  unfold Numpy.scale, Numpy.ones. now rewrite length_map, repeat_length.
Qed.

Lemma dot_shape_tuple (n : Z) (e : Q) (i : list Z) :
  In i (Sympy.variations [0; 1; 2] (length (energy_res n e))) ->
  length (Numpy.asarray i) = length (energy_res n e).
Proof.
  intro Hi. apply in_variations in Hi. unfold Numpy.asarray.
  rewrite length_map. apply Hi.
Qed.

(** *** The two tests, on integers *)

Lemma half_eqb (a b : Z) : Qeq_bool (half a) (half b) = (a =? b).
Proof.
  apply eq_true_iff_eq. rewrite Qeq_bool_iff, half_eq, Z.eqb_eq. reflexivity.
Qed.

Section Tests.

Variables (n : Z) (e : Q) (x : Z).
Hypothesis Hex : excess n e x.

(** The test of the loop, on a tuple over the residual levels. *)
Lemma accepts_tail (i : list Z) :
  length i = residual_levels n e ->
  accepts (updated_n n e) (energy_res n e) (updated_e n e) i
  = (Python.sum i =? n - 2 * min_en n e)
    && (weight2 (min_en n e) i
        =? ground2 n + 2 * x - 2 * min_en n e * min_en n e).
Proof.
  intro Hl. unfold accepts, updated_n.
  replace (n - min_en n e * 2) with (n - 2 * min_en n e) by lia.
  destruct (Python.sum i =? n - 2 * min_en n e); [|reflexivity].
  cbn [andb].
  rewrite (energy_res_eq n e x Hex).
  pose proof (min_en_bounds n e x Hex) as HB.
  replace (Z.to_nat (max_en n e) - Z.to_nat (min_en n e))%nat
    with (length i)
    by (rewrite Hl, (residual_levels_eq n e x Hex); lia).
  rewrite (Qeqb_comp _ _ (dot_asarray i (Z.to_nat (min_en n e)))
             _ _ (updated_e_eq n e x Hex)).
  rewrite half_eqb, Z2Nat.id by lia. reflexivity.
Qed.

(** The test of the full enumeration. *)
Lemma full_test (c : list Z) :
  (Python.sum c =? n) && Qeq_bool (total_energy c) e
  = (Python.sum c =? n) && (weight2 0 c =? ground2 n + 2 * x).
Proof.
  f_equal.
  rewrite (Qeqb_comp _ _ (total_energy_half c) _ _ (proj2 (proj2 Hex))).
  apply half_eqb.
Qed.

End Tests.

(** *** The frozen prefix *)

Lemma deficit_identity (k : Z) (c : list Z) :
  forall o : Z,
    0 <= o -> k <= o + Z.of_nat (length c) ->
    weight2 o c - (2 * k + 1) * Python.sum c
    + 2 * Z.max 0 (k - o) * (Z.max 0 (k - o) + 1)
    = deficit k o c.
Proof.
  induction c as [|y c IH]; intros o Ho Hk.
  - cbn [length] in Hk. cbn [weight2 deficit]. rewrite sum_nil.
    replace (Z.max 0 (k - o)) with 0 by lia. lia.
  - cbn [length] in Hk. cbn [weight2 deficit]. rewrite sum_cons.
    rewrite <- (IH (o + 1)) by lia.
    rewrite Z.mul_add_distr_l.
    destruct (Z.ltb_spec o k) as [Hlt|Hge].
    + replace (Z.max 0 (k - o)) with (k - o) by lia.
      replace (Z.max 0 (k - (o + 1))) with (k - o - 1) by lia. ring.
    + replace (Z.max 0 (k - o)) with 0 by lia.
      replace (Z.max 0 (k - (o + 1))) with 0 by lia. ring.
Qed.

Lemma deficit_nonneg (k : Z) (c : list Z) :
  forall o : Z, occupancy_sequence c -> 0 <= deficit k o c.
Proof.
  induction c as [|y c IH]; intros o Hc; cbn [deficit]; [lia|].
  inversion Hc as [|? ? Hy Hc']; subst.
  specialize (IH (o + 1) Hc').
  destruct (Z.ltb_spec o k); destruct Hy as [ -> | [ -> | -> ] ]; lia.
Qed.

(** A tuple whose deficit is small has its first levels full. *)
Lemma deficit_frozen (k : Z) (m : nat) :
  forall (c : list Z) (o : Z),
    occupancy_sequence c -> (m <= length c)%nat ->
    deficit k o c <= 2 * (k - o - Z.of_nat m) ->
    firstn m c = repeat 2 m.
Proof.
  induction m as [|m IH]; intros c o Hc Hl Hd; [reflexivity|].
  destruct c as [|y c]; [cbn [length] in Hl; lia|].
  cbn [length] in Hl. cbn [deficit] in Hd.
  inversion Hc as [|? ? Hy Hc']; subst.
  pose proof (deficit_nonneg k c (o + 1) Hc') as Hpos.
  cbn [firstn repeat].
  destruct (Z.ltb_spec o k) as [Hlt|Hge]; destruct Hy as [ -> | [ -> | -> ] ];
    try lia.
  f_equal. apply (IH c (o + 1)); [assumption | lia | lia].
Qed.

Lemma excess_deficit (k r x W n : Z) :
  n = 2 * k + r -> W = 2 * k * k + r * (2 * k + 1) + 2 * x ->
  W - (2 * k + 1) * n + 2 * k * (k + 1) = 2 * x.
Proof. intros -> ->. ring. Qed.

(** In a configuration of a valid input the first [min_en] levels are
    full: emptying one costs more energy than the input has above the
    ground state. *)
Lemma frozen_prefix (n : Z) (e : Q) (x : Z) (c : list Z) :
  excess n e x ->
  length c = Z.to_nat (max_en n e) -> occupancy_sequence c ->
  Python.sum c = n -> weight2 0 c = ground2 n + 2 * x ->
  firstn (Z.to_nat (min_en n e)) c = frozen n e.
Proof.
  intros Hex Hl Hc Hs Hw. unfold frozen.
  pose proof (min_en_bounds n e x Hex) as HB.
  destruct Hex as (Hn & Hx & He).
  pose proof (max_en_eq n e x (conj Hn (conj Hx He))) as HM.
  pose proof (min_en_eq n e x (conj Hn (conj Hx He))) as Hm.
  pose proof (len_eq n Hn) as HL.
  destruct (Z.eq_dec (min_en n e) 0) as [E0|E0]; [now rewrite E0|].
  apply (deficit_frozen (n / 2) _ c 0); [assumption | lia |].
  rewrite <- (deficit_identity (n / 2) c 0) by lia.
  rewrite Hs, Hw. unfold ground2.
  replace (Z.max 0 (n / 2 - 0)) with (n / 2) by lia.
  rewrite (excess_deficit (n / 2) (n mod 2) x _ n); [lia | lia | reflexivity].
Qed.

(** *** Splitting the tuples into a prefix and a tail *)

Section ListFacts.

Context {A B C : Type}.

Lemma flat_map_flat_map (f : B -> list C) (g : A -> list B) (l : list A) :
  flat_map f (flat_map g l) = flat_map (fun a => flat_map f (g a)) l.
Proof.
  induction l as [|a l IH]; [reflexivity|].
  cbn [flat_map]. now rewrite flat_map_app, IH.
Qed.

Lemma flat_map_of_map (f : B -> list C) (g : A -> B) (l : list A) :
  flat_map f (map g l) = flat_map (fun a => f (g a)) l.
Proof.
  induction l as [|a l IH]; [reflexivity|].
  cbn [map flat_map]. now rewrite IH.
Qed.

Lemma map_of_flat_map (f : B -> C) (g : A -> list B) (l : list A) :
  map f (flat_map g l) = flat_map (fun a => map f (g a)) l.
Proof.
  induction l as [|a l IH]; [reflexivity|].
  cbn [flat_map]. now rewrite map_app, IH.
Qed.

Lemma filter_flat_map (f : B -> bool) (g : A -> list B) (l : list A) :
  filter f (flat_map g l) = flat_map (fun a => filter f (g a)) l.
Proof.
  induction l as [|a l IH]; [reflexivity|].
  cbn [flat_map]. now rewrite filter_app, IH.
Qed.

Lemma filter_none (f : B -> bool) (l : list B) :
  (forall b, In b l -> f b = false) -> filter f l = [].
Proof.
  induction l as [|b l IH]; intro H; [reflexivity|].
  cbn [filter]. rewrite (H b) by now left.
  apply IH. intros b' Hb'. apply H. now right.
Qed.

Lemma flat_map_none (g : A -> list B) (l : list A) :
  (forall a, In a l -> g a = []) -> flat_map g l = [].
Proof.
  induction l as [|a l IH]; intro H; [reflexivity|].
  cbn [flat_map]. rewrite (H a) by now left.
  apply IH. intros a' Ha'. apply H. now right.
Qed.

(** A [flat_map] that is empty everywhere but at one element. *)
Lemma flat_map_single (g : A -> list B) (l : list A) (a : A) :
  NoDup l -> In a l -> (forall a', In a' l -> a' <> a -> g a' = []) ->
  flat_map g l = g a.
Proof.
  intros Hnd. induction Hnd as [|a0 l Ha0 Hnd IH]; intros Hin Hg; [easy|].
  cbn [flat_map]. destruct Hin as [->|Hin].
  - rewrite (flat_map_none g l); [apply app_nil_r|].
    intros a' Ha'. apply Hg; [now right | congruence].
  - rewrite (Hg a0); [|now left | congruence].
    apply IH; [assumption|]. intros a' Ha'. apply Hg. now right.
Qed.

End ListFacts.

Lemma variations_app (seq : list Z) (a b : nat) :
  Sympy.variations seq (a + b)
  = flat_map (fun p => map (app p) (Sympy.variations seq b))
             (Sympy.variations seq a).
Proof.
  induction a as [|a IH]; cbn [Nat.add Sympy.variations].
  - cbn [flat_map]. rewrite app_nil_r. symmetry. apply map_id.
  - rewrite IH, flat_map_flat_map. apply flat_map_ext. intro y.
    rewrite map_of_flat_map, flat_map_of_map. apply flat_map_ext. intro p.
    rewrite map_map. reflexivity.
Qed.

(** *** The search over the residual levels is the full search *)

Lemma frozen_in_variations (n : Z) (e : Q) :
  In (frozen n e) (Sympy.variations [0; 1; 2] (Z.to_nat (min_en n e))).
Proof.
  apply in_variations_occ. unfold frozen. split; [apply repeat_length|].
  apply Forall_forall. intros y Hy. apply repeat_spec in Hy. subst.
  right. now right.
Qed.

Lemma emitted_full (n : Z) (e : Q) :
  valid_input n e -> emitted n e = full_enumeration n e.
Proof.
  intro Hv. destruct (valid_excess n e Hv) as [x Hex].
  pose proof (min_en_bounds n e x Hex) as HB.
  pose proof (residual_levels_eq n e x Hex) as HL.
  rewrite emitted_eq by apply Hv.
  unfold full_enumeration, tails.
  replace (Z.to_nat (max_en n e))
    with (Z.to_nat (min_en n e) + residual_levels n e)%nat by lia.
  rewrite variations_app, filter_flat_map.
  rewrite (flat_map_single _ _ (frozen n e)).
  - rewrite filter_map_swap. f_equal. apply filter_ext_in.
    intros t Ht. apply in_variations_occ in Ht. destruct Ht as [Hl Ht].
    rewrite (accepts_tail n e x Hex t Hl), (full_test n e x Hex).
    unfold frozen. rewrite sum_app, sum_repeat, weight2_app, weight2_repeat2.
    rewrite repeat_length, !Z2Nat.id by lia.
    change (0 + min_en n e) with (min_en n e).
    f_equal; apply eq_true_iff_eq; rewrite !Z.eqb_eq; split; intro; lia.
  - apply NoDup_variations, NoDup_012.
  - apply frozen_in_variations.
  - intros p Hp Hne. apply filter_none. intros c Hc.
    apply in_map_iff in Hc. destruct Hc as (t & <- & Ht).
    apply not_true_is_false. intro Hacc.
    rewrite (full_test n e x Hex) in Hacc.
    apply andb_true_iff in Hacc. destruct Hacc as [Hs Hw].
    apply Z.eqb_eq in Hs. apply Z.eqb_eq in Hw.
    apply in_variations_occ in Hp. destruct Hp as [Hlp Hop].
    apply in_variations_occ in Ht. destruct Ht as [Hlt Hot].
    apply Hne.
    rewrite <- (frozen_prefix n e x (p ++ t) Hex); try assumption.
    + rewrite <- Hlp, <- (Nat.add_0_r (length p)), firstn_app_2.
      cbn [firstn]. now rewrite app_nil_r.
    + rewrite length_app. lia.
    + apply Forall_app. now split.
Qed.

(** *** The order of the tuples *)

Section Sorting.

Context {A : Type} (R : A -> A -> Prop).

Lemma StronglySorted_app (l1 l2 : list A) :
  StronglySorted R l1 -> StronglySorted R l2 ->
  (forall a b, In a l1 -> In b l2 -> R a b) ->
  StronglySorted R (l1 ++ l2).
Proof.
  intros H1 H2 H12. induction H1 as [|a l1 H1 IH Ha]; [assumption|].
  cbn [app]. constructor.
  - apply IH. intros a' b Ha' Hb. apply H12; [now right | assumption].
  - apply Forall_app. split; [assumption|].
    apply Forall_forall. intros b Hb. apply H12; [now left | assumption].
Qed.

Lemma StronglySorted_filter (f : A -> bool) (l : list A) :
  StronglySorted R l -> StronglySorted R (filter f l).
Proof.
  intro H. induction H as [|a l H IH Ha]; cbn [filter]; [constructor|].
  destruct (f a); [|assumption].
  constructor; [assumption|].
  rewrite Forall_forall in *. intros b Hb.
  apply filter_In in Hb. now apply Ha.
Qed.

End Sorting.

Lemma StronglySorted_map_cons (y : Z) (l : list (list Z)) :
  StronglySorted lex_lt l -> StronglySorted lex_lt (map (cons y) l).
Proof.
  intro H. induction H as [|c l H IH Hc]; cbn [map]; constructor.
  - assumption.
  - rewrite Forall_forall in *. intros c' Hc'.
    apply in_map_iff in Hc'. destruct Hc' as (d & <- & Hd).
    apply lex_lt_tail. now apply Hc.
Qed.

Lemma StronglySorted_flat_map_cons (V : list (list Z)) (seq : list Z) :
  StronglySorted lex_lt V -> StronglySorted Z.lt seq ->
  StronglySorted lex_lt (flat_map (fun y => map (cons y) V) seq).
Proof.
  intros HV Hs. induction Hs as [|y seq Hs IH Hy]; cbn [flat_map];
    [constructor|].
  apply StronglySorted_app.
  - now apply StronglySorted_map_cons.
  - exact IH.
  - intros a b Ha Hb.
    apply in_map_iff in Ha. destruct Ha as (c & <- & _).
    apply in_flat_map in Hb. destruct Hb as (z & Hz & Hb).
    apply in_map_iff in Hb. destruct Hb as (d & <- & _).
    apply lex_lt_head. rewrite Forall_forall in Hy. now apply Hy.
Qed.

Lemma StronglySorted_012 : StronglySorted Z.lt [0; 1; 2].
Proof. repeat constructor. Qed.

(** [variations] lists the tuples in increasing lexicographic order. *)
Lemma StronglySorted_variations (k : nat) :
  StronglySorted lex_lt (Sympy.variations [0; 1; 2] k).
Proof.
  induction k as [|k IH]; cbn [Sympy.variations].
  - repeat constructor.
  - apply StronglySorted_flat_map_cons; [exact IH | exact StronglySorted_012].
Qed.

Lemma StronglySorted_tails (n : Z) (e : Q) : StronglySorted lex_lt (tails n e).
Proof. apply StronglySorted_filter, StronglySorted_variations. Qed.

(** *** The output depends on the value of [e] only *)

Section SameValue.

Variables (n : Z) (e e' : Q).
Hypothesis Hee : (e == e')%Q.

Lemma parity_check_Qeq : parity_check n e = parity_check n e'.
Proof.
  unfold parity_check, Python.mod1.
  rewrite (Qfloor_comp _ _ Hee).
  assert (E : (e - inject_Z (Qfloor e') == e' - inject_Z (Qfloor e'))%Q)
    by (rewrite Hee; reflexivity).
  now rewrite (Qeqb_comp _ _ E 0%Q 0%Q (Qeq_refl _)),
    (Qeqb_comp _ _ E (1#2) (1#2) (Qeq_refl _)).
Qed.

Lemma cell5_Qeq : cell5 n e = cell5 n e'.
Proof.
  unfold cell5, Python.lt.
  now rewrite (Qleb_comp _ _ (Qeq_refl (ground_state_energy n)) _ _ Hee),
    (Qeqb_comp _ _ Hee _ _ (Qeq_refl (ground_state_energy n))).
Qed.

Lemma max_en_Qeq : max_en n e = max_en n e'.
Proof. unfold max_en. apply int_Qeq. rewrite Hee. reflexivity. Qed.

Lemma min_en_Qeq : min_en n e = min_en n e'.
Proof.
  unfold min_en.
  rewrite (int_Qeq _ (inject_Z (len n) - (e' - ground_state_energy n)));
    [reflexivity|].
  rewrite Hee. reflexivity.
Qed.

Lemma energy_ext_Qeq : energy_ext n e = energy_ext n e'.
Proof.
  unfold energy_ext, electron_states_ext. now rewrite max_en_Qeq.
Qed.

Lemma temp_energy_Qeq : temp_energy n e = temp_energy n e'.
Proof. unfold temp_energy. now rewrite min_en_Qeq, energy_ext_Qeq. Qed.

Lemma energy_res_Qeq : energy_res n e = energy_res n e'.
Proof. unfold energy_res. now rewrite min_en_Qeq, energy_ext_Qeq. Qed.

Lemma updated_e_Qeq : (updated_e n e == updated_e n e')%Q.
Proof.
  unfold updated_e. rewrite temp_energy_Qeq.
  generalize (Numpy.dot (temp_energy n e')
                (Numpy.scale (Numpy.ones (length (temp_energy n e'))) 2)).
  intro d. rewrite Hee. reflexivity.
Qed.

Lemma tails_Qeq : tails n e = tails n e'.
Proof.
  unfold tails, residual_levels, updated_n.
  rewrite energy_res_Qeq, min_en_Qeq.
  apply filter_ext. intro i. unfold accepts.
  now rewrite (Qeqb_comp _ _ (Qeq_refl _) _ _ updated_e_Qeq).
Qed.

Lemma notebook_Qeq : notebook n e = notebook n e'.
Proof.
  unfold notebook, cell2, cell6.
  rewrite !cell11_eq, parity_check_Qeq, cell5_Qeq, max_en_Qeq, min_en_Qeq,
    tails_Qeq.
  reflexivity.
Qed.

End SameValue.

(** ** The properties of the specification *)

(** What the notebook prints on one input. *)
Lemma notebook_3_13_2 :
  notebook 3 (13#2)
  = ([Max_Min 6 0; Configuration [0; 1; 2; 0; 0; 0];
      Configuration [0; 2; 0; 1; 0; 0]; Configuration [1; 0; 1; 1; 0; 0];
      Configuration [1; 1; 0; 0; 1; 0]; Configuration [2; 0; 0; 0; 0; 1];
      There_are 5], None).
Proof. vm_compute. reflexivity. Qed.

(** C1.  For a valid input [(n, e)] every configuration the notebook
    lists has [n] electrons and the energy [e], the sum over the levels
    [i] of the occupancy times [i + 0.5]. *)
Theorem emitted_sum_energy (n : Z) (e : Q) (c : list Z) :
  valid_input n e -> In c (emitted n e) ->
  Python.sum c = n /\ (total_energy c == e)%Q.
Proof.
  intros Hv Hc. rewrite (emitted_full n e Hv) in Hc.
  unfold full_enumeration in Hc. apply filter_In in Hc.
  destruct Hc as [_ Hc]. apply andb_true_iff in Hc.
  destruct Hc as [Hs He]. split.
  - now apply Z.eqb_eq.
  - now apply Qeq_bool_iff.
Qed.

Lemma emitted_sum_energy_witness :
  valid_input 3 (13#2) /\ In [1; 1; 0; 0; 1; 0] (emitted 3 (13#2))
  /\ Python.sum [1; 1; 0; 0; 1; 0] = 3
  /\ (total_energy [1; 1; 0; 0; 1; 0]%Z == 13#2)%Q.
Proof.
  assert (Hv : valid_input 3 (13#2)) by (vm_compute; repeat split; congruence).
  assert (Hc : In [1; 1; 0; 0; 1; 0] (emitted 3 (13#2)))
    by (vm_compute; tauto).
  split; [exact Hv|]. split; [exact Hc|].
  exact (emitted_sum_energy 3 (13#2) [1; 1; 0; 0; 1; 0] Hv Hc).
Defined.

(** For a valid input the notebook has as many levels as the
    specification. *)
Lemma max_level_eq (n : Z) (e : Q) :
  valid_input n e -> max_level n e = Z.to_nat (max_en n e).
Proof.
  intro Hv. destruct (valid_excess n e Hv) as [x Hex].
  pose proof (max_en_eq n e x Hex) as HM.
  pose proof (len_eq n (proj1 Hex)) as Hlen.
  pose proof (length_ground_state n (proj1 Hex)) as HG.
  assert (HE : (e - total_energy (ground_state n) == inject_Z x)%Q).
  { rewrite <- (ground_state_energy_total n (proj1 Hex)).
    apply (excess_energy n e x Hex). }
  unfold max_level. rewrite (Qfloor_comp _ _ HE), Qfloor_Z.
  destruct Hex as (Hn & Hx & _). lia.
Qed.

(** C2.  For a valid input the notebook lists exactly the occupancy
    sequences over the [max_level] levels of the specification (the
    length of the ground-state ladder plus the whole part of the excess
    energy) that have [n] electrons and the energy [e]: each of them,
    none of them twice, and the count it reports is the number of
    configurations it lists. *)
Theorem emitted_exact (n : Z) (e : Q) :
  valid_input n e ->
  (forall c, In c (emitted n e) <-> is_full_configuration n e c)
  /\ NoDup (emitted n e)
  /\ reported n e = [Z.of_nat (length (emitted n e))].
Proof.
  intro Hv. split; [|split].
  - intro c. rewrite (emitted_full n e Hv). unfold full_enumeration.
    rewrite filter_In, in_variations_occ, andb_true_iff, Z.eqb_eq,
      Qeq_bool_iff.
    unfold is_full_configuration. rewrite (max_level_eq n e Hv). tauto.
  - rewrite (emitted_full n e Hv). unfold full_enumeration.
    apply NoDup_filter, NoDup_variations, NoDup_012.
  - apply reported_emitted, Hv.
Qed.

Lemma emitted_exact_witness :
  valid_input 3 (13#2)
  /\ (forall c, In c (emitted 3 (13#2)) <-> is_full_configuration 3 (13#2) c)
  /\ NoDup (emitted 3 (13#2))
  /\ reported 3 (13#2) = [Z.of_nat (length (emitted 3 (13#2)))].
Proof.
  assert (Hv : valid_input 3 (13#2)) by (vm_compute; repeat split; congruence).
  split; [exact Hv|]. exact (emitted_exact 3 (13#2) Hv).
Defined.

(** C3.  For a valid input the search over the residual levels, with
    the [min_en] frozen levels set to 2 in front of each tuple, lists
    what the search over all the [max_en] levels lists, in the same
    order; and every configuration has its first [min_en] levels at
    occupancy 2. *)
Theorem frozen_prefix_refinement (n : Z) (e : Q) :
  valid_input n e ->
  emitted n e = map (app (frozen n e)) (tails n e)
  /\ emitted n e = full_enumeration n e
  /\ forall c, is_configuration n e c ->
       firstn (Z.to_nat (min_en n e)) c = repeat 2 (Z.to_nat (min_en n e)).
Proof.
  intro Hv. split; [|split].
  - apply emitted_eq, Hv.
  - now apply emitted_full.
  - intros c (Hl & Hc & Hs & He).
    destruct (valid_excess n e Hv) as [x Hex].
    apply (frozen_prefix n e x c Hex Hl Hc Hs).
    apply half_eq. rewrite <- total_energy_half, He. apply Hex.
Qed.

Lemma frozen_prefix_refinement_witness :
  valid_input 5 (15#2)
  /\ emitted 5 (15#2) = map (app (frozen 5 (15#2))) (tails 5 (15#2))
  /\ emitted 5 (15#2) = full_enumeration 5 (15#2)
  /\ forall c, is_configuration 5 (15#2) c ->
       firstn (Z.to_nat (min_en 5 (15#2))) c
       = repeat 2 (Z.to_nat (min_en 5 (15#2))).
Proof.
  assert (Hv : valid_input 5 (15#2)) by (vm_compute; repeat split; congruence).
  split; [exact Hv|]. exact (frozen_prefix_refinement 5 (15#2) Hv).
Defined.

(** *** The warnings *)

Lemma lt_spec (a b : Q) : Python.lt a b = true <-> (a < b)%Q.
Proof.
  unfold Python.lt. rewrite negb_true_iff. split.
  - intro H. apply Qnot_le_lt. intro Hle.
    apply Qle_bool_iff in Hle. congruence.
  - intro H. apply not_true_is_false. intro Hle.
    apply Qle_bool_iff in Hle. now apply (Qlt_not_le a b).
Qed.

Lemma cell2_invalid (n : Z) (e : Q) :
  In Invalid_values (cell2 n e) <-> ~ parity_consistent n e.
Proof.
  rewrite <- parity_check_consistent. unfold cell2.
  destruct (parity_check n e); cbn [In]; intuition congruence.
Qed.

Lemma cell5_invalid (n : Z) (e : Q) :
  0 <= n ->
  In Invalid_values (cell5 n e) <-> (e < total_energy (ground_state n))%Q.
Proof.
  intro Hn. rewrite <- (ground_state_energy_total n Hn), <- lt_spec.
  unfold cell5. destruct (Python.lt e (ground_state_energy n)).
  - cbn [In]. tauto.
  - destruct (Qeq_bool e (ground_state_energy n)); cbn [In];
      intuition congruence.
Qed.

Lemma cell11_no_warning (n : Z) (e : Q) : ~ In Invalid_values (cell11 n e).
Proof.
  rewrite cell11_eq, in_app_iff, in_map_iff. cbn [In].
  intros [(i & Hi & _)|[H|[]]]; discriminate.
Qed.

(** C4, as the notebook has it.  For [n >= 0] the notebook prints
    'Invalid values' exactly when the parity of [e] does not fit [n] or
    [e] is strictly below the energy of the ground state; this is a
    warning only: no exception is raised, the search runs all the same
    and its count is reported. *)
Theorem invalid_values_warning (n : Z) (e : Q) :
  0 <= n ->
  (In Invalid_values (fst (notebook n e))
   <-> ~ parity_consistent n e \/ (e < total_energy (ground_state n))%Q)
  /\ snd (notebook n e) = None
  /\ reported n e = [Z.of_nat (length (emitted n e))].
Proof.
  intro Hn. split; [|split].
  - rewrite (notebook_runs n e Hn). cbn [fst].
    rewrite !in_app_iff, cell2_invalid, (cell5_invalid n e Hn).
    pose proof (cell11_no_warning n e) as H11.
    unfold cell6. cbn [In]. intuition discriminate.
  - now rewrite (notebook_runs n e Hn).
  - now apply reported_emitted.
Qed.

Lemma invalid_values_warning_witness :
  0 <= 3
  /\ (In Invalid_values (fst (notebook 3 5))
      <-> ~ parity_consistent 3 5 \/ (5 < total_energy (ground_state 3))%Q)
  /\ snd (notebook 3 5) = None
  /\ reported 3 5 = [Z.of_nat (length (emitted 3 5))].
Proof.
  assert (Hn : 0 <= 3) by lia.
  split; [exact Hn|]. exact (invalid_values_warning 3 5 Hn).
Defined.

(** C4, as the specification has it, fails: for [n = 4] and [e = 2],
    below the ground-state energy 4, the notebook prints its warning and
    goes on to the search, which ends without an exception and reports
    its count of 0. *)
Lemma invalid_input_still_enumerates :
  (2 < total_energy (ground_state 4))%Q
  /\ notebook 4 2 = ([Invalid_values; Max_Min 0 4; There_are 0], None).
Proof. split; vm_compute; reflexivity. Qed.

(** C5.  When [e] is the ground-state energy the notebook lists one
    configuration, the ground state, and counts 1. *)
Theorem ground_state_unique (n : Z) (e : Q) :
  0 <= n -> (e == ground_state_energy n)%Q ->
  emitted n e = [ground_state n] /\ reported n e = [1].
Proof.
  intros Hn He.
  assert (Hex : excess n e 0).
  { repeat split; [assumption | lia |].
    rewrite He, (ground_state_energy_half n Hn). apply half_eq. lia. }
  assert (Hm : min_en n e = n / 2) by (rewrite (min_en_eq n e 0 Hex); lia).
  pose proof (max_en_eq n e 0 Hex) as HM.
  pose proof (residual_levels_eq n e 0 Hex) as HL.
  pose proof (len_eq n Hn) as Hlen.
  assert (Ht : tails n e = [if n mod 2 =? 0 then [] else [1]]).
  { unfold tails.
    destruct (Z.eqb_spec (n mod 2) 0) as [E|E].
    - replace (residual_levels n e) with 0%nat by lia.
      cbn [Sympy.variations filter].
      rewrite (accepts_tail n e 0 Hex []) by (cbn [length]; lia).
      cbn [weight2]. rewrite sum_nil.
      replace (0 =? n - 2 * min_en n e) with true
        by (symmetry; apply Z.eqb_eq; lia).
      replace (0 =? ground2 n + 2 * 0 - 2 * min_en n e * min_en n e) with true
        by (symmetry; apply Z.eqb_eq; unfold ground2; rewrite Hm, E; lia).
      reflexivity.
    - replace (residual_levels n e) with 1%nat by lia.
      cbn [Sympy.variations flat_map map app filter].
      rewrite !(accepts_tail n e 0 Hex) by (cbn [length]; lia).
      cbn [weight2]. rewrite !sum_cons, sum_nil.
      replace (0 + 0 =? n - 2 * min_en n e) with false
        by (symmetry; apply Z.eqb_neq; lia).
      replace (2 + 0 =? n - 2 * min_en n e) with false
        by (symmetry; apply Z.eqb_neq; lia).
      replace (1 + 0 =? n - 2 * min_en n e) with true
        by (symmetry; apply Z.eqb_eq; lia).
      replace (1 * (2 * min_en n e + 1) + 0
               =? ground2 n + 2 * 0 - 2 * min_en n e * min_en n e) with true
        by (symmetry; apply Z.eqb_eq; unfold ground2; rewrite Hm;
            replace (n mod 2) with 1 by lia; lia).
      reflexivity. }
  split.
  - rewrite (emitted_eq n e Hn), Ht. unfold frozen, ground_state.
    rewrite Hm. reflexivity.
  - rewrite (reported_eq n e Hn), Ht. reflexivity.
Qed.

Lemma ground_state_unique_witness :
  0 <= 5 /\ (13#2 == ground_state_energy 5)%Q
  /\ emitted 5 (13#2) = [ground_state 5] /\ reported 5 (13#2) = [1].
Proof.
  assert (Hn : 0 <= 5) by lia.
  assert (He : (13#2 == ground_state_energy 5)%Q) by (vm_compute; reflexivity).
  split; [exact Hn|]. split; [exact He|].
  exact (ground_state_unique 5 (13#2) Hn He).
Defined.

(** C6.  The notebook lists its configurations in the lexicographic
    order of their tails over the residual levels, read from the left
    with the leftmost level varying slowest; and what it prints is a
    function of [n] and of the value of [e]: two runs on the same input
    print the same lines in the same order. *)
Theorem emitted_lexicographic (n : Z) (e : Q) :
  0 <= n ->
  emitted n e = map (app (frozen n e)) (tails n e)
  /\ Forall (fun t => length t = residual_levels n e /\ occupancy_sequence t)
            (tails n e)
  /\ StronglySorted lex_lt (tails n e)
  /\ forall e' : Q, (e == e')%Q -> notebook n e' = notebook n e.
Proof.
  intro Hn. repeat split.
  - now apply emitted_eq.
  - apply Forall_forall. intros t Ht. unfold tails in Ht.
    apply filter_In in Ht. destruct Ht as [Ht _].
    now apply in_variations_occ.
  - apply StronglySorted_tails.
  - intros e' Hee. symmetry. now apply notebook_Qeq.
Qed.

Lemma emitted_lexicographic_witness :
  0 <= 3
  /\ emitted 3 (13#2) = map (app (frozen 3 (13#2))) (tails 3 (13#2))
  /\ Forall (fun t => length t = residual_levels 3 (13#2)
                      /\ occupancy_sequence t) (tails 3 (13#2))
  /\ StronglySorted lex_lt (tails 3 (13#2))
  /\ forall e' : Q, (13#2 == e')%Q -> notebook 3 e' = notebook 3 (13#2).
Proof.
  assert (Hn : 0 <= 3) by lia.
  split; [exact Hn|]. exact (emitted_lexicographic 3 (13#2) Hn).
Defined.

Lemma length_variations (k : nat) :
  length (Sympy.variations [0; 1; 2] k) = (3 ^ k)%nat.
Proof.
  induction k as [|k IH]; [reflexivity|].
  cbn [Sympy.variations flat_map]. rewrite !length_app, !length_map, IH.
  cbn [length Nat.pow]. lia.
Qed.

(** C7, as the notebook has it.  The search takes no bound on the
    number of residual levels and raises no error about it: for every
    [n >= 0] the run ends without an exception after the loop has gone
    through all the [3 ^ residual_levels] tuples. *)
Theorem enumeration_unbounded (n : Z) (e : Q) :
  0 <= n ->
  snd (notebook n e) = None
  /\ length (Sympy.variations [0; 1; 2] (residual_levels n e))
     = (3 ^ residual_levels n e)%nat
  /\ emitted n e
     = map (app (frozen n e))
         (filter (accepts (updated_n n e) (energy_res n e) (updated_e n e))
                 (Sympy.variations [0; 1; 2] (residual_levels n e)))
  /\ reported n e = [Z.of_nat (length (emitted n e))].
Proof.
  intro Hn. repeat split.
  - now rewrite (notebook_runs n e Hn).
  - apply length_variations.
  - now apply emitted_eq.
  - now apply reported_emitted.
Qed.

Lemma enumeration_unbounded_witness :
  0 <= 3
  /\ snd (notebook 3 (13#2)) = None
  /\ length (Sympy.variations [0; 1; 2] (residual_levels 3 (13#2)))
     = (3 ^ residual_levels 3 (13#2))%nat
  /\ emitted 3 (13#2)
     = map (app (frozen 3 (13#2)))
         (filter (accepts (updated_n 3 (13#2)) (energy_res 3 (13#2))
                          (updated_e 3 (13#2)))
                 (Sympy.variations [0; 1; 2] (residual_levels 3 (13#2))))
  /\ reported 3 (13#2) = [Z.of_nat (length (emitted 3 (13#2)))].
Proof.
  assert (Hn : 0 <= 3) by lia.
  split; [exact Hn|]. exact (enumeration_unbounded 3 (13#2) Hn).
Defined.

(** C7, as the specification has it, fails: whatever bound below 6 a
    caller has in mind, the input [(3, 6.5)] has 6 residual levels and
    the notebook searches them, lists 5 configurations and ends without
    an exception. *)
Lemma no_search_space_error :
  (5 < residual_levels 3 (13#2))%nat
  /\ snd (notebook 3 (13#2)) = None
  /\ length (emitted 3 (13#2)) = 5%nat
  /\ reported 3 (13#2) = [5].
Proof.
  unfold emitted, reported. rewrite notebook_3_13_2.
  repeat split. vm_compute. lia.
Qed.

(** The run on the input of the notebook. *)
Lemma emitted_20_106 :
  emitted 20 106
  = [[2; 2; 2; 2; 1; 2; 2; 2; 2; 2; 1; 0; 0; 0; 0; 0];
     [2; 2; 2; 2; 2; 1; 2; 2; 2; 1; 2; 0; 0; 0; 0; 0];
     [2; 2; 2; 2; 2; 1; 2; 2; 2; 2; 0; 1; 0; 0; 0; 0];
     [2; 2; 2; 2; 2; 2; 1; 2; 1; 2; 2; 0; 0; 0; 0; 0];
     [2; 2; 2; 2; 2; 2; 1; 2; 2; 1; 1; 1; 0; 0; 0; 0];
     [2; 2; 2; 2; 2; 2; 1; 2; 2; 2; 0; 0; 1; 0; 0; 0];
     [2; 2; 2; 2; 2; 2; 2; 0; 2; 2; 2; 0; 0; 0; 0; 0];
     [2; 2; 2; 2; 2; 2; 2; 1; 1; 2; 1; 1; 0; 0; 0; 0];
     [2; 2; 2; 2; 2; 2; 2; 1; 2; 0; 2; 1; 0; 0; 0; 0];
     [2; 2; 2; 2; 2; 2; 2; 1; 2; 1; 0; 2; 0; 0; 0; 0];
     [2; 2; 2; 2; 2; 2; 2; 1; 2; 1; 1; 0; 1; 0; 0; 0];
     [2; 2; 2; 2; 2; 2; 2; 1; 2; 2; 0; 0; 0; 1; 0; 0];
     [2; 2; 2; 2; 2; 2; 2; 2; 0; 1; 2; 1; 0; 0; 0; 0];
     [2; 2; 2; 2; 2; 2; 2; 2; 0; 2; 0; 2; 0; 0; 0; 0];
     [2; 2; 2; 2; 2; 2; 2; 2; 0; 2; 1; 0; 1; 0; 0; 0];
     [2; 2; 2; 2; 2; 2; 2; 2; 1; 0; 1; 2; 0; 0; 0; 0];
     [2; 2; 2; 2; 2; 2; 2; 2; 1; 0; 2; 0; 1; 0; 0; 0];
     [2; 2; 2; 2; 2; 2; 2; 2; 1; 1; 0; 1; 1; 0; 0; 0];
     [2; 2; 2; 2; 2; 2; 2; 2; 1; 1; 1; 0; 0; 1; 0; 0];
     [2; 2; 2; 2; 2; 2; 2; 2; 1; 2; 0; 0; 0; 0; 1; 0];
     [2; 2; 2; 2; 2; 2; 2; 2; 2; 0; 0; 0; 2; 0; 0; 0];
     [2; 2; 2; 2; 2; 2; 2; 2; 2; 0; 0; 1; 0; 1; 0; 0];
     [2; 2; 2; 2; 2; 2; 2; 2; 2; 0; 1; 0; 0; 0; 1; 0];
     [2; 2; 2; 2; 2; 2; 2; 2; 2; 1; 0; 0; 0; 0; 0; 1]].
Proof. vm_compute. reflexivity. Qed.

(** C8, as the notebook has it.  For [n = 20] and [e = 106] the
    notebook lists and counts 24 configurations, the frozen prefix has
    length 4, and the first configuration is the prefix 2 2 2 2 before
    the tail 1 2 2 2 2 2 1 0 0 0 0 0. *)
Theorem run_20_106 :
  length (emitted 20 106) = 24%nat
  /\ reported 20 106 = [24]
  /\ min_en 20 106 = 4
  /\ hd [] (emitted 20 106)
     = [2; 2; 2; 2] ++ [1; 2; 2; 2; 2; 2; 1; 0; 0; 0; 0; 0].
Proof.
  assert (Hn : 0 <= 20) by lia.
  rewrite (reported_emitted 20 106 Hn), emitted_20_106.
  repeat split.
Qed.

(** C8, as the specification has it, fails on the first
    configuration: it is not 2 2 2 2 before 2 1 2 2 2 2 2 1 0 0 0 0, a
    tail of 14 electrons where 12 are left to place. *)
Lemma first_configuration_20_106 :
  hd [] (emitted 20 106)
  <> [2; 2; 2; 2] ++ [2; 1; 2; 2; 2; 2; 2; 1; 0; 0; 0; 0].
Proof. rewrite emitted_20_106. cbn [hd app]. intro H. discriminate H. Qed.

(** C9, as the notebook has it.  The ground state of 2 electrons has
    the energy 1, and for [n = 2] and [e = 1] the notebook lists and
    counts one configuration, [[2]]. *)
Theorem run_2_1 :
  (ground_state_energy 2 == 1)%Q /\ ground_state 2 = [2]
  /\ emitted 2 1 = [[2]] /\ reported 2 1 = [1].
Proof. repeat split. Qed.

(** C9, as the specification has it, fails: [e = 0.5] is neither an
    integer nor at least the ground-state energy 1 of 2 electrons; the
    notebook warns twice and lists no configuration. *)
Lemma run_2_half :
  notebook 2 (1#2)
  = ([Invalid_values; Invalid_values; Max_Min 0 1; There_are 0], None)
  /\ emitted 2 (1#2) = [].
Proof. split; reflexivity. Qed.

(** C10.  For a valid input the reduced problem is well formed: the
    frozen prefix is within the ground-state ladder, which is within the
    [max_en] levels; the search runs over [max_en - min_en] levels; the
    electrons left to place are between 0 and two per residual level;
    the energy left to place is not negative; and with no frozen level
    the array [[0]] takes nothing from the targets. *)
Theorem reduced_problem_bounds (n : Z) (e : Q) :
  valid_input n e ->
  0 <= min_en n e <= len n /\ len n <= max_en n e
  /\ Z.of_nat (residual_levels n e) = max_en n e - min_en n e
  /\ 0 <= updated_n n e <= 2 * Z.of_nat (residual_levels n e)
  /\ (0 <= updated_e n e)%Q
  /\ (min_en n e = 0 ->
      temp_energy n e = [0%Q] /\ updated_n n e = n
      /\ (updated_e n e == e)%Q).
Proof.
  intro Hv. destruct (valid_excess n e Hv) as [x Hex].
  pose proof (min_en_bounds n e x Hex) as HB.
  pose proof (residual_levels_eq n e x Hex) as HL.
  pose proof (min_en_eq n e x Hex) as Hm.
  pose proof (max_en_eq n e x Hex) as HM.
  destruct Hex as (Hn & Hx & He).
  pose proof (len_eq n Hn) as Hlen.
  split; [apply HB|]. split; [apply HB|]. split; [lia|].
  split; [unfold updated_n; lia|]. split.
  - rewrite (updated_e_eq n e x (conj Hn (conj Hx He))).
    apply half_nonneg. unfold ground2.
    assert (Hsq : min_en n e * min_en n e <= (n / 2) * (n / 2))
      by (apply Z.mul_le_mono_nonneg; lia).
    assert (Hr : 0 <= (n mod 2) * (2 * (n / 2) + 1))
      by (apply Z.mul_nonneg_nonneg; lia).
    lia.
  - intro E0. unfold temp_energy, updated_n, updated_e.
    unfold temp_energy. rewrite E0. cbn [Z.eqb length].
    repeat split; [lia|].
    cbn [Numpy.ones repeat Numpy.scale map Numpy.dot]. ring.
Qed.

Lemma reduced_problem_bounds_witness :
  valid_input 5 (15#2)
  /\ 0 <= min_en 5 (15#2) <= len 5 /\ len 5 <= max_en 5 (15#2)
  /\ Z.of_nat (residual_levels 5 (15#2)) = max_en 5 (15#2) - min_en 5 (15#2)
  /\ 0 <= updated_n 5 (15#2) <= 2 * Z.of_nat (residual_levels 5 (15#2))
  /\ (0 <= updated_e 5 (15#2))%Q
  /\ (min_en 5 (15#2) = 0 ->
      temp_energy 5 (15#2) = [0%Q] /\ updated_n 5 (15#2) = 5
      /\ (updated_e 5 (15#2) == 15#2)%Q).
Proof.
  assert (Hv : valid_input 5 (15#2)) by (vm_compute; repeat split; congruence).
  split; [exact Hv|]. exact (reduced_problem_bounds 5 (15#2) Hv).
Defined.


(** ** Further properties of the notebook *)

(** *** The while loop of cell In[7], in closed form *)

Lemma extend_closed (fuel : nat) :
  forall (es : list Q) (mx : Z),
    (Z.to_nat (mx - Z.of_nat (length es)) <= fuel)%nat ->
    extend fuel es mx
    = es ++ repeat 0%Q (Z.to_nat (mx - Z.of_nat (length es))).
Proof.
  induction fuel as [|fuel IH]; intros es mx Hf; cbn [extend].
  - replace (Z.to_nat (mx - Z.of_nat (length es))) with 0%nat by lia.
    cbn [repeat]. now rewrite app_nil_r.
  - destruct (Z.ltb_spec (Z.of_nat (length es)) mx) as [Hlt|Hge].
    + unfold Numpy.append. rewrite IH; rewrite length_app; cbn [length];
        [|lia].
      rewrite <- app_assoc. f_equal.
      replace (Z.to_nat (mx - Z.of_nat (length es)))
        with (S (Z.to_nat (mx - Z.of_nat (length es + 1)))) by lia.
      reflexivity.
    + replace (Z.to_nat (mx - Z.of_nat (length es))) with 0%nat by lia.
      cbn [repeat]. now rewrite app_nil_r.
Qed.

Lemma electron_states_ext_length (n : Z) (e : Q) :
  Z.of_nat (length (electron_states_ext n e)) = Z.max (len n) (max_en n e).
Proof. unfold electron_states_ext, len. apply extend_length. lia. Qed.

(** X1.  The loop of cell In[7] leaves the ground-state ladder in place
    and puts [max_en - len] empty levels behind it, none when [max_en]
    is not above the length of the ladder; the result has
    [max (len, max_en)] levels. *)
Theorem electron_states_ext_closed (n : Z) (e : Q) :
  electron_states_ext n e
  = electron_states n ++ repeat 0%Q (Z.to_nat (max_en n e - len n))
  /\ Z.of_nat (length (electron_states_ext n e)) = Z.max (len n) (max_en n e).
Proof.
  unfold electron_states_ext, len. split.
  - apply extend_closed. lia.
  - apply extend_length. lia.
Qed.

(** *** What every tuple of occupancies satisfies *)

Lemma sum_occupancy (c : list Z) :
  occupancy_sequence c -> 0 <= Python.sum c <= 2 * Z.of_nat (length c).
Proof.
  intro Hc. induction Hc as [|y c Hy Hc IH].
  - rewrite sum_nil. cbn [length]. lia.
  - rewrite sum_cons. cbn [length]. destruct Hy as [ -> | [ -> | -> ] ]; lia.
Qed.

Lemma weight2_parity (c : list Z) :
  forall o : Z, exists z : Z, weight2 o c = Python.sum c + 2 * z.
Proof.
  induction c as [|y c IH]; intro o.
  - exists 0. rewrite sum_nil. reflexivity.
  - destruct (IH (o + 1)) as [z Hz]. exists (y * o + z).
    cbn [weight2]. rewrite sum_cons, Hz. ring.
Qed.

Lemma ground2_alt (n : Z) :
  (2 * (n / 2) + 1) * n - 2 * (n / 2) * (n / 2 + 1) = ground2 n.
Proof.
  unfold ground2.
  assert (H : n = 2 * (n / 2) + n mod 2) by lia.
  revert H. generalize (n / 2) (n mod 2). intros k r ->. ring.
Qed.

(** No tuple of occupancies with [n] electrons has less than the
    energy of the ground state. *)
Lemma weight2_ground_least (n : Z) (c : list Z) :
  occupancy_sequence c -> Python.sum c = n -> ground2 n <= weight2 0 c.
Proof.
  intros Hc Hs. pose proof (sum_occupancy c Hc) as Hb.
  pose proof (deficit_nonneg (n / 2) c 0 Hc) as Hd.
  rewrite <- (deficit_identity (n / 2) c 0) in Hd by lia.
  rewrite Hs in Hd, Hb.
  replace (Z.max 0 (n / 2 - 0)) with (n / 2) in Hd by lia.
  pose proof (ground2_alt n). lia.
Qed.

Lemma parity_of_energy (n : Z) (e : Q) (c : list Z) :
  Python.sum c = n -> (total_energy c == e)%Q -> parity_consistent n e.
Proof.
  intros Hs He. destruct (weight2_parity c 0) as [z Hz].
  rewrite total_energy_half, Hz, Hs in He.
  assert (Hr : n mod 2 = 0 \/ n mod 2 = 1) by lia.
  destruct Hr as [Hr|Hr]; [left | right]; split.
  - now apply mod2_Even.
  - exists (n / 2 + z). rewrite <- He, half_inject. apply half_eq. lia.
  - now apply mod2_Odd.
  - exists (n / 2 + z). rewrite <- He.
    assert (E : n + 2 * z = 2 * (n / 2 + z) + 1) by lia.
    rewrite E. fractions.
Qed.

(** An input that has a configuration at all, of whatever length, is a
    valid input. *)
Lemma feasible_valid (n : Z) (e : Q) (c : list Z) :
  occupancy_sequence c -> Python.sum c = n -> (total_energy c == e)%Q ->
  valid_input n e.
Proof.
  intros Hc Hs He. pose proof (sum_occupancy c Hc) as Hb.
  assert (Hn : 0 <= n) by lia.
  repeat split; [assumption | |].
  - apply parity_check_consistent. now apply (parity_of_energy n e c).
  - unfold Python.lt. apply negb_false_iff, Qle_bool_iff.
    rewrite (ground_state_energy_half n Hn), <- He, total_energy_half.
    apply half_le. now apply weight2_ground_least.
Qed.

(** *** The listing on every input *)

Lemma min_en_nonneg (n : Z) (e : Q) : 0 <= min_en n e.
Proof.
  unfold min_en.
  destruct (n mod 2 =? 1);
    match goal with |- 0 <= (if ?b >? 0 then _ else _) =>
      destruct (Z.gtb_spec b 0); lia end.
Qed.

Lemma energy_ext_all (n : Z) (e : Q) :
  energy_ext n e = map ladder (seq 0 (length (electron_states_ext n e))).
Proof. unfold energy_ext. apply arange_half. Qed.

Lemma energy_res_all (n : Z) (e : Q) :
  energy_res n e
  = map ladder (seq (Z.to_nat (min_en n e))
                    (length (electron_states_ext n e)
                     - Z.to_nat (min_en n e))).
Proof.
  unfold energy_res. rewrite energy_ext_all, skipn_map, skipn_seq.
  reflexivity.
Qed.

Lemma frozen_energy_all (n : Z) (e : Q) :
  (Z.to_nat (min_en n e) <= length (electron_states_ext n e))%nat ->
  (Numpy.dot (temp_energy n e)
     (Numpy.scale (Numpy.ones (length (temp_energy n e))) 2)
   == half (2 * min_en n e * min_en n e))%Q.
Proof.
  intro Hm. pose proof (min_en_nonneg n e) as H0. unfold temp_energy.
  destruct (Z.eqb_spec (min_en n e) 0) as [E|E].
  - rewrite E. reflexivity.
  - rewrite energy_ext_all, firstn_map, firstn_seq_le by lia.
    rewrite length_map, length_seq, dot_ladder_twos.
    apply half_eq. lia.
Qed.

(** Whatever the input, a listed configuration spans the levels of the
    extended ladder and has [n] electrons and the energy [e]. *)
Lemma emitted_sound (n : Z) (e : Q) (c : list Z) :
  0 <= n -> In c (emitted n e) ->
  length c = length (electron_states_ext n e) /\ occupancy_sequence c
  /\ Python.sum c = n /\ (total_energy c == e)%Q.
Proof.
  intros Hn Hc. rewrite (emitted_eq n e Hn) in Hc.
  apply in_map_iff in Hc. destruct Hc as (t & <- & Ht).
  unfold tails in Ht. apply filter_In in Ht. destruct Ht as [Ht Hacc].
  apply in_variations_occ in Ht. destruct Ht as [Hl Ho].
  unfold residual_levels in Hl. rewrite energy_res_all in Hl, Hacc.
  rewrite length_map, length_seq in Hl.
  pose proof (min_en_nonneg n e) as H0.
  pose proof (electron_states_ext_length n e) as HM.
  pose proof (len_eq n Hn) as Hlen.
  unfold accepts, updated_n in Hacc.
  destruct (Z.eqb_spec (Python.sum t) (n - min_en n e * 2)) as [Hs|Hs];
    [|discriminate].
  destruct (Nat.le_gt_cases (Z.to_nat (min_en n e))
              (length (electron_states_ext n e))) as [Hle|Hgt].
  - rewrite <- Hl in Hacc. apply Qeq_bool_iff in Hacc.
    rewrite dot_asarray in Hacc. unfold updated_e in Hacc.
    rewrite (frozen_energy_all n e Hle) in Hacc.
    unfold frozen. repeat split.
    + rewrite length_app, repeat_length. lia.
    + apply Forall_app. split; [|assumption].
      apply Forall_forall. intros y Hy. apply repeat_spec in Hy. subst.
      right. now right.
    + rewrite sum_app, sum_repeat. lia.
    + rewrite total_energy_half, weight2_app, weight2_repeat2, repeat_length.
      change (0 + Z.of_nat (Z.to_nat (min_en n e)))
        with (Z.of_nat (Z.to_nat (min_en n e))).
      rewrite Z2Nat.id in Hacc |- * by lia.
      revert Hacc. generalize (min_en n e). intro m.
      generalize (weight2 m t). intros w Hacc.
      assert (E : (e == half w + half (2 * m * m))%Q)
        by (revert Hacc; generalize (half w) (half (2 * m * m)); intros; lra).
      rewrite E, half_plus. apply half_eq. lia.
  - assert (Ht : t = []) by (apply length_zero_iff_nil; lia).
    subst t. rewrite sum_nil in Hs. lia.
Qed.

Lemma in_emitted_valid (n : Z) (e : Q) (c : list Z) :
  valid_input n e -> In c (emitted n e) <-> is_configuration n e c.
Proof.
  intro Hv. rewrite (emitted_full n e Hv). unfold full_enumeration.
  rewrite filter_In, in_variations_occ, andb_true_iff, Z.eqb_eq, Qeq_bool_iff.
  unfold is_configuration. tauto.
Qed.

(** X2.  Whatever the input with [n >= 0], warned about or not, the
    notebook lists exactly the occupancy sequences over the levels of
    the extended ladder that have [n] electrons and the energy [e]. *)
Theorem emitted_exact_all (n : Z) (e : Q) (c : list Z) :
  0 <= n ->
  In c (emitted n e)
  <-> length c = length (electron_states_ext n e) /\ occupancy_sequence c
      /\ Python.sum c = n /\ (total_energy c == e)%Q.
Proof.
  intro Hn. split; [now apply emitted_sound|].
  intros (Hl & Ho & Hs & He).
  assert (Hv : valid_input n e) by now apply (feasible_valid n e c).
  apply (in_emitted_valid n e c Hv).
  destruct (valid_excess n e Hv) as [x Hex].
  pose proof (min_en_bounds n e x Hex) as HB.
  pose proof (electron_states_ext_length n e) as HM.
  repeat split; try assumption. lia.
Qed.

Lemma emitted_exact_all_witness :
  0 <= 3
  /\ (In [0; 2; 0; 1; 0; 0] (emitted 3 (13#2))
      <-> length [0; 2; 0; 1; 0; 0] = length (electron_states_ext 3 (13#2))
          /\ occupancy_sequence [0; 2; 0; 1; 0; 0]
          /\ Python.sum [0; 2; 0; 1; 0; 0] = 3
          /\ (total_energy [0; 2; 0; 1; 0; 0]%Z == 13#2)%Q).
Proof.
  assert (Hn : 0 <= 3) by lia.
  split; [exact Hn|].
  exact (emitted_exact_all 3 (13#2) [0; 2; 0; 1; 0; 0] Hn).
Defined.

Lemma no_element_nil {A : Type} (l : list A) :
  (forall a, ~ In a l) -> l = [].
Proof.
  destruct l as [|a l]; [reflexivity|].
  intro H. exfalso. apply (H a). now left.
Qed.

(** X3.  A warning comes with an empty listing: when the notebook
    prints 'Invalid values', no tuple of occupancies of any length has
    [n] electrons and the energy [e], and the notebook lists no
    configuration and reports the count 0. *)
Theorem warning_no_configuration (n : Z) (e : Q) :
  0 <= n -> In Invalid_values (fst (notebook n e)) ->
  (forall c, occupancy_sequence c -> Python.sum c = n ->
             ~ (total_energy c == e)%Q)
  /\ emitted n e = [] /\ reported n e = [0].
Proof.
  intros Hn Hw.
  assert (Hnv : ~ valid_input n e).
  { intros (_ & Hp & Hg). rewrite (notebook_runs n e Hn) in Hw. cbn [fst] in Hw.
    rewrite !in_app_iff in Hw. destruct Hw as [Hw|[Hw|[Hw|Hw]]].
    - apply cell2_invalid in Hw. now apply Hw, parity_check_consistent.
    - apply (cell5_invalid n e Hn) in Hw.
      rewrite <- (ground_state_energy_total n Hn) in Hw.
      apply lt_spec in Hw. congruence.
    - unfold cell6 in Hw. cbn [In] in Hw. destruct Hw as [Hw|[]]. discriminate.
    - now apply (cell11_no_warning n e). }
  assert (He : emitted n e = []).
  { apply no_element_nil. intros c Hc.
    apply (emitted_sound n e c Hn) in Hc. destruct Hc as (_ & Ho & Hs & He).
    apply Hnv. now apply (feasible_valid n e c). }
  split; [|split].
  - intros c Ho Hs He'. apply Hnv. now apply (feasible_valid n e c).
  - exact He.
  - rewrite (reported_emitted n e Hn), He. reflexivity.
Qed.

Lemma warning_no_configuration_witness :
  0 <= 3 /\ In Invalid_values (fst (notebook 3 5))
  /\ (forall c, occupancy_sequence c -> Python.sum c = 3 ->
                ~ (total_energy c == 5)%Q)
  /\ emitted 3 5 = [] /\ reported 3 5 = [0].
Proof.
  assert (Hn : 0 <= 3) by lia.
  assert (Hw : In Invalid_values (fst (notebook 3 5)))
    by (vm_compute; tauto).
  split; [exact Hn|]. split; [exact Hw|].
  exact (warning_no_configuration 3 5 Hn Hw).
Defined.


(** *** A valid input has a configuration *)

Lemma weight2_repeat0 (k : nat) (o : Z) : weight2 o (repeat 0 k) = 0.
Proof.
  revert o. induction k as [|k IH]; intro o; [reflexivity|].
  cbn [repeat weight2]. rewrite IH. lia.
Qed.

Lemma occupancy_repeat (y : Z) (k : nat) :
  occupancy y -> occupancy_sequence (repeat y k).
Proof.
  intro Hy. apply Forall_forall. intros z Hz.
  apply repeat_spec in Hz. now subst.
Qed.

Lemma promoted_occupancy (n x : Z) : occupancy_sequence (promoted n x).
Proof.
  assert (H0 : occupancy 0) by now left.
  assert (H1 : occupancy 1) by (right; now left).
  assert (H2 : occupancy 2) by (right; now right).
  unfold promoted, occupancy_sequence.
  destruct (n mod 2 =? 0); [destruct (x =? 0)|];
    repeat first [ apply Forall_app; split
                 | apply occupancy_repeat; assumption
                 | apply Forall_cons; [assumption|]
                 | apply Forall_nil ].
Qed.

Lemma promoted_measures (n x : Z) :
  1 <= n -> 0 <= x ->
  Z.of_nat (length (promoted n x)) = n / 2 + n mod 2 + x
  /\ Python.sum (promoted n x) = n
  /\ weight2 0 (promoted n x) = ground2 n + 2 * x.
Proof.
  intros Hn Hx. unfold promoted, ground2.
  destruct (Z.eqb_spec (n mod 2) 0) as [Hr|Hr];
    [destruct (Z.eqb_spec x 0) as [Hx0|Hx0]|].
  - rewrite repeat_length, sum_repeat, weight2_repeat2, Hr.
    rewrite !Z2Nat.id by lia. lia.
  - rewrite !length_app, !repeat_length, !sum_app, !sum_repeat, !sum_cons,
      sum_nil, !weight2_app, weight2_repeat2, weight2_repeat0.
    cbn [length weight2]. rewrite !repeat_length, Hr.
    rewrite !Nat2Z.inj_add, !Z2Nat.id by lia. change (Z.of_nat 1) with 1.
    assert (Hk : n = 2 * (n / 2)) by lia. revert Hk.
    generalize (n / 2). intros k Hk.
    repeat split; [lia | lia | ring].
  - assert (Hr1 : n mod 2 = 1) by lia.
    rewrite !length_app, !repeat_length, !sum_app, !sum_repeat, !sum_cons,
      sum_nil, !weight2_app, weight2_repeat2, weight2_repeat0.
    cbn [length weight2]. rewrite !repeat_length, Hr1.
    rewrite !Nat2Z.inj_add, !Z2Nat.id by lia. change (Z.of_nat 1) with 1.
    assert (Hk : n = 2 * (n / 2) + 1) by lia. revert Hk.
    generalize (n / 2). intros k Hk.
    repeat split; [lia | lia | ring].
Qed.

(** X4.  Without a warning there is something to list: for a valid
    input with at least one electron the notebook lists at least one
    configuration, among them the ground state with its topmost
    electron raised by the whole excess energy. *)
Theorem valid_has_configuration (n : Z) (e : Q) :
  valid_input n e -> 1 <= n ->
  In (promoted n (max_en n e - len n)) (emitted n e)
  /\ exists k : Z, reported n e = [k] /\ 1 <= k.
Proof.
  intros Hv Hn. destruct (valid_excess n e Hv) as [x Hex].
  pose proof (max_en_eq n e x Hex) as HM.
  pose proof (len_eq n (proj1 Hex)) as Hlen.
  replace (max_en n e - len n) with x by lia.
  destruct (promoted_measures n x Hn (proj1 (proj2 Hex))) as (Hl & Hs & Hw).
  assert (Hin : In (promoted n x) (emitted n e)).
  { apply (in_emitted_valid n e _ Hv). repeat split.
    - lia.
    - apply promoted_occupancy.
    - exact Hs.
    - rewrite total_energy_half, Hw. symmetry. apply Hex. }
  split; [exact Hin|].
  exists (Z.of_nat (length (emitted n e))). split.
  - apply reported_emitted, Hv.
  - destruct (emitted n e); [destruct Hin | cbn [length]; lia].
Qed.

Lemma valid_has_configuration_witness :
  valid_input 4 7 /\ 1 <= 4
  /\ In (promoted 4 (max_en 4 7 - len 4)) (emitted 4 7)
  /\ exists k : Z, reported 4 7 = [k] /\ 1 <= k.
Proof.
  assert (Hv : valid_input 4 7) by (vm_compute; repeat split; congruence).
  assert (Hn : 1 <= 4) by lia.
  split; [exact Hv|]. split; [exact Hn|].
  exact (valid_has_configuration 4 7 Hv Hn).
Defined.

(** *** No electron *)

Lemma weight2_no_electron (c : list Z) :
  forall o : Z, occupancy_sequence c -> Python.sum c = 0 -> weight2 o c = 0.
Proof.
  induction c as [|y c IH]; intros o Hc Hs; [reflexivity|].
  inversion Hc as [|? ? Hy Hc']; subst. rewrite sum_cons in Hs.
  pose proof (sum_occupancy c Hc') as Hb.
  cbn [weight2]. rewrite (IH (o + 1) Hc') by (destruct Hy as [ -> | [ -> | -> ] ]; lia).
  destruct Hy as [ -> | [ -> | -> ] ]; lia.
Qed.

(** X5.  With no electron the notebook lists the one empty
    configuration when [e] is 0 and nothing for any other [e]. *)
Theorem no_electron (e : Q) :
  emitted 0 e = if Qeq_bool e 0 then [[]] else [].
Proof.
  assert (Hn : 0 <= 0) by lia.
  destruct (Qeq_bool e 0) eqn:He.
  - apply Qeq_bool_iff in He.
    assert (Hex : excess 0 e 0).
    { repeat split; [lia | lia |]. rewrite He. reflexivity. }
    pose proof (min_en_eq 0 e 0 Hex) as Hm. cbn in Hm.
    pose proof (max_en_eq 0 e 0 Hex) as HM. cbn in HM.
    pose proof (residual_levels_eq 0 e 0 Hex) as HL.
    rewrite Hm, HM in HL. cbn in HL.
    rewrite (emitted_eq 0 e Hn). unfold tails, frozen. rewrite HL, Hm.
    cbn [Sympy.variations filter Z.to_nat repeat].
    rewrite (accepts_tail 0 e 0 Hex []) by (rewrite HL; reflexivity).
    rewrite Hm. reflexivity.
  - apply no_element_nil. intros c Hc.
    apply (emitted_sound 0 e c Hn) in Hc. destruct Hc as (_ & Ho & Hs & Hc).
    rewrite total_energy_half, (weight2_no_electron c 0 Ho Hs) in Hc.
    apply Qeq_bool_neq in He. apply He. rewrite <- Hc. reflexivity.
Qed.

(** *** The two tests of the normalizer are necessary *)

(** X6.  No tuple of occupancies has less energy than the ground state
    of its electrons: the ground-state energy the notebook computes is
    the least energy of [n] electrons, and the ground state has it. *)
Theorem ground_state_least (c : list Z) :
  occupancy_sequence c ->
  (ground_state_energy (Python.sum c) <= total_energy c)%Q
  /\ (total_energy (ground_state (Python.sum c))
      == ground_state_energy (Python.sum c))%Q
  /\ Python.sum (ground_state (Python.sum c)) = Python.sum c.
Proof.
  intro Hc. pose proof (sum_occupancy c Hc) as Hb.
  assert (Hn : 0 <= Python.sum c) by lia.
  split; [|split].
  - rewrite (ground_state_energy_half _ Hn), total_energy_half.
    apply half_le. now apply weight2_ground_least.
  - symmetry. now apply ground_state_energy_total.
  - now apply sum_ground_state.
Qed.

Lemma ground_state_least_witness :
  occupancy_sequence [1; 0; 2]
  /\ (ground_state_energy (Python.sum [1; 0; 2]%Z)
      <= total_energy [1; 0; 2]%Z)%Q
  /\ (total_energy (ground_state (Python.sum [1; 0; 2]%Z))
      == ground_state_energy (Python.sum [1; 0; 2]%Z))%Q
  /\ Python.sum (ground_state (Python.sum [1; 0; 2])) = Python.sum [1; 0; 2].
Proof.
  assert (Hc : occupancy_sequence [1; 0; 2]).
  { repeat constructor; unfold occupancy; lia. }
  split; [exact Hc|]. exact (ground_state_least [1; 0; 2] Hc).
Defined.

(** X7.  The parity test of cell In[2] accepts the energy of every
    tuple of integers for the number of its electrons: it only warns
    about an energy that no tuple has. *)
Theorem parity_check_energy (c : list Z) :
  parity_check (Python.sum c) (total_energy c) = true.
Proof.
  apply parity_check_consistent.
  apply (parity_of_energy _ _ c); reflexivity.
Qed.

(** *** More energy, more levels *)

Lemma int_monotone (p q : Q) : (p <= q)%Q -> Python.int p <= Python.int q.
Proof.
  intro H. unfold Python.int.
  destruct (Qle_bool 0 p) eqn:Hp; destruct (Qle_bool 0 q) eqn:Hq.
  - now apply Qfloor_resp_le.
  - apply Qle_bool_iff in Hp.
    assert (Hq' : (0 <= q)%Q) by (now apply Qle_trans with p).
    apply Qle_bool_iff in Hq'. congruence.
  - apply Qle_bool_iff in Hq.
    assert (Hp' : (p <= 0)%Q).
    { apply Qlt_le_weak, Qnot_le_lt. intro Hle.
      apply Qle_bool_iff in Hle. congruence. }
    pose proof (Qceiling_resp_le p 0 Hp') as H1.
    pose proof (Qfloor_resp_le 0 q Hq) as H2.
    change (Qceiling 0) with 0 in H1. change (Qfloor 0) with 0 in H2. lia.
  - now apply Qceiling_resp_le.
Qed.

(** X8.  More energy never gives fewer levels: [max_en] does not
    decrease and [min_en] does not increase when [e] increases, for the
    same [n]. *)
Theorem levels_monotone (n : Z) (e e' : Q) :
  (e <= e')%Q -> max_en n e <= max_en n e' /\ min_en n e' <= min_en n e.
Proof.
  intro H. split.
  - unfold max_en. apply int_monotone. lra.
  - unfold min_en.
    assert (Hi : Python.int (inject_Z (len n) - (e' - ground_state_energy n))
                 <= Python.int (inject_Z (len n) - (e - ground_state_energy n)))
      by (apply int_monotone; lra).
    revert Hi.
    generalize (Python.int (inject_Z (len n) - (e' - ground_state_energy n)))
               (Python.int (inject_Z (len n) - (e - ground_state_energy n))).
    intros a b Hab.
    destruct (n mod 2 =? 1);
      repeat match goal with |- context [?u >? 0] =>
               destruct (Z.gtb_spec u 0) end; lia.
Qed.

Lemma levels_monotone_witness :
  (106 <= 110)%Q
  /\ max_en 20 106 <= max_en 20 110 /\ min_en 20 110 <= min_en 20 106.
Proof.
  assert (H : (106 <= 110)%Q) by (vm_compute; congruence).
  split; [exact H|]. exact (levels_monotone 20 106 110 H).
Defined.

(** *** The size of the search *)

(** X9.  For a valid input below [2 ^ 52], where the floats of the
    notebook are exact, the excess [x] of [e] over the ground-state
    energy is the whole number [max_en - len]; the frozen prefix is
    [n/2 - x] levels long, or empty when that is negative; and the
    search runs over [min (2x, n/2 + x)] levels, one more for an odd [n]:
    over a number of levels that [n] does not change once [n/2 >= x]. *)
Theorem search_space_size (n : Z) (e : Q) :
  valid_input n e -> binary64_exact e ->
  0 <= max_en n e - len n
  /\ (e - ground_state_energy n == inject_Z (max_en n e - len n))%Q
  /\ min_en n e = Z.max 0 (n / 2 - (max_en n e - len n))
  /\ Z.of_nat (residual_levels n e)
     = Z.min (2 * (max_en n e - len n)) (n / 2 + (max_en n e - len n))
       + n mod 2.
Proof.
  intros Hv _. destruct (valid_excess n e Hv) as [x Hex].
  pose proof (max_en_eq n e x Hex) as HM.
  pose proof (min_en_eq n e x Hex) as Hm.
  pose proof (residual_levels_eq n e x Hex) as HL.
  pose proof (excess_energy n e x Hex) as HE.
  pose proof (len_eq n (proj1 Hex)) as Hlen.
  destruct Hex as (Hn & Hx & _).
  replace (max_en n e - len n) with x by lia.
  repeat split; try assumption; lia.
Qed.

Lemma search_space_size_witness :
  valid_input 20 106 /\ binary64_exact 106
  /\ 0 <= max_en 20 106 - len 20
  /\ (106 - ground_state_energy 20 == inject_Z (max_en 20 106 - len 20))%Q
  /\ min_en 20 106 = Z.max 0 (20 / 2 - (max_en 20 106 - len 20))
  /\ Z.of_nat (residual_levels 20 106)
     = Z.min (2 * (max_en 20 106 - len 20)) (20 / 2 + (max_en 20 106 - len 20))
       + 20 mod 2.
Proof.
  assert (Hv : valid_input 20 106) by (vm_compute; repeat split; congruence).
  assert (Hb : binary64_exact 106) by (vm_compute; reflexivity).
  split; [exact Hv|]. split; [exact Hb|].
  exact (search_space_size 20 106 Hv Hb).
Defined.

(** *** Two electrons more, the same excess *)

Lemma weight2_shift (t : list Z) :
  forall o : Z, weight2 (o + 1) t = weight2 o t + 2 * Python.sum t.
Proof.
  induction t as [|y t IH]; intro o.
  - rewrite sum_nil. reflexivity.
  - cbn [weight2]. rewrite sum_cons, IH. ring.
Qed.

Lemma ground2_shift (n : Z) : ground2 (n + 2) = ground2 n + 2 * (n + 1).
Proof.
  unfold ground2.
  replace ((n + 2) / 2) with (n / 2 + 1) by lia.
  replace ((n + 2) mod 2) with (n mod 2) by lia.
  assert (H : n = 2 * (n / 2) + n mod 2) by lia.
  revert H. generalize (n / 2) (n mod 2). intros k r ->. ring.
Qed.

(** X10.  The tails depend on the excess energy and on the parity of
    [n] only, once the frozen prefix is not cut short: when the excess
    of a valid input is at most [n / 2], the input with one full level
    more below, [n + 2] electrons and the energy [e + n + 1], has the
    same accepted tails and the same count. *)
Theorem tails_shift (n : Z) (e : Q) :
  valid_input n e ->
  (e - ground_state_energy n <= inject_Z (n / 2))%Q ->
  tails (n + 2) (e + inject_Z (n + 1)) = tails n e
  /\ reported (n + 2) (e + inject_Z (n + 1)) = reported n e.
Proof.
  intros Hv Hle. destruct (valid_excess n e Hv) as [x Hex].
  rewrite (excess_energy n e x Hex) in Hle. rewrite <- Zle_Qle in Hle.
  assert (Hex' : excess (n + 2) (e + inject_Z (n + 1)) x).
  { destruct Hex as (Hn & Hx & He). repeat split; [lia | assumption |].
    rewrite He, half_inject, half_plus, ground2_shift.
    apply half_eq. lia. }
  assert (Hn : 0 <= n) by apply Hex.
  assert (Hk : (n + 2) / 2 = n / 2 + 1) by lia.
  assert (Hr : (n + 2) mod 2 = n mod 2) by lia.
  assert (Hm : min_en n e = n / 2 - x)
    by (rewrite (min_en_eq n e x Hex); lia).
  assert (Hm' : min_en (n + 2) (e + inject_Z (n + 1)) = min_en n e + 1)
    by (rewrite (min_en_eq _ _ x Hex'), Hk, Hm; lia).
  assert (HL : residual_levels (n + 2) (e + inject_Z (n + 1))
               = residual_levels n e).
  { rewrite (residual_levels_eq _ _ x Hex'), (residual_levels_eq n e x Hex).
    rewrite Hm', (max_en_eq _ _ x Hex'), (max_en_eq n e x Hex).
    rewrite (len_eq (n + 2)), (len_eq n Hn), Hk, Hr by lia. f_equal. lia. }
  assert (Ht : tails (n + 2) (e + inject_Z (n + 1)) = tails n e).
  { unfold tails. rewrite HL. apply filter_ext_in. intros t Ht.
    apply in_variations_occ in Ht. destruct Ht as [Hl _].
    rewrite (accepts_tail _ _ x Hex' t) by (now rewrite HL).
    rewrite (accepts_tail n e x Hex t Hl).
    rewrite Hm', weight2_shift, ground2_shift.
    generalize (weight2 (min_en n e) t) (ground2 n) (min_en n e).
    intros w g m.
    destruct (Z.eqb_spec (Python.sum t) (n - 2 * m)) as [Hs|Hs].
    - replace (Python.sum t =? n + 2 - 2 * (m + 1)) with true
        by (symmetry; apply Z.eqb_eq; lia).
      cbn [andb]. rewrite Hs.
      apply eq_true_iff_eq. rewrite !Z.eqb_eq. split; intro H; lia.
    - replace (Python.sum t =? n + 2 - 2 * (m + 1)) with false
        by (symmetry; apply Z.eqb_neq; lia).
      reflexivity. }
  split; [exact Ht|].
  rewrite !reported_eq, Ht by lia. reflexivity.
Qed.

Lemma tails_shift_witness :
  valid_input 4 6 /\ (6 - ground_state_energy 4 <= inject_Z (4 / 2))%Q
  /\ tails (4 + 2) (6 + inject_Z (4 + 1)) = tails 4 6
  /\ reported (4 + 2) (6 + inject_Z (4 + 1)) = reported 4 6.
Proof.
  assert (Hv : valid_input 4 6) by (vm_compute; repeat split; congruence).
  assert (Hle : (6 - ground_state_energy 4 <= inject_Z (4 / 2))%Q)
    by (vm_compute; congruence).
  split; [exact Hv|]. split; [exact Hle|].
  exact (tails_shift 4 6 Hv Hle).
Defined.

(** *** No electron above [max_en] *)

(** A tuple whose deficit is small has its high levels empty. *)
Lemma deficit_empty (k x : Z) (c : list Z) :
  forall (o : Z) (i : nat),
    occupancy_sequence c -> deficit k o c <= 2 * x ->
    k + x < o + Z.of_nat i -> nth i c 0 = 0.
Proof.
  induction c as [|y c IH]; intros o i Hc Hd Hi.
  - now destruct i.
  - inversion Hc as [|? ? Hy Hc']; subst. cbn [deficit] in Hd.
    pose proof (deficit_nonneg k c (o + 1) Hc') as Hpos.
    destruct i as [|i]; cbn [nth].
    + destruct (Z.ltb_spec o k); destruct Hy as [ -> | [ -> | -> ] ]; lia.
    + apply (IH (o + 1) i Hc'); [|lia].
      destruct (Z.ltb_spec o k); destruct Hy as [ -> | [ -> | -> ] ]; lia.
Qed.

Lemma excess_deficit_top (n x W : Z) :
  0 <= n -> W = ground2 n + 2 * x ->
  W - (2 * (n / 2 + n mod 2 - 1) + 1) * n
  + 2 * Z.max 0 (n / 2 + n mod 2 - 1 - 0)
    * (Z.max 0 (n / 2 + n mod 2 - 1 - 0) + 1)
  = 2 * x.
Proof.
  intros Hn ->. unfold ground2.
  assert (H : n = 2 * (n / 2) + n mod 2) by lia.
  assert (Hr : n mod 2 = 0 \/ n mod 2 = 1) by lia.
  assert (Hk : 0 <= n / 2) by lia.
  revert H Hr Hk. generalize (n / 2) (n mod 2). intros k r -> [ -> | -> ] Hk.
  - destruct (Z.eq_dec k 0) as [ -> |Hk0].
    + replace (Z.max 0 (0 + 0 - 1 - 0)) with 0 by lia. ring.
    + replace (Z.max 0 (k + 0 - 1 - 0)) with (k - 1) by lia. ring.
  - replace (Z.max 0 (k + 1 - 1 - 0)) with k by lia. ring.
Qed.

(** X12.  [max_en] levels are enough: for a valid input below
    [2 ^ 52], where the floats of the notebook are exact, in a tuple of
    occupancies of any length with [n] electrons and the energy [e],
    every level from [max_en] on is empty. *)
Theorem max_en_enough (n : Z) (e : Q) (c : list Z) (i : nat) :
  valid_input n e -> binary64_exact e ->
  occupancy_sequence c -> Python.sum c = n -> (total_energy c == e)%Q ->
  max_en n e <= Z.of_nat i -> nth i c 0 = 0.
Proof.
  intros Hv _ Hc Hs He Hi. destruct (valid_excess n e Hv) as [x Hex].
  pose proof (max_en_eq n e x Hex) as HM.
  pose proof (len_eq n (proj1 Hex)) as Hlen.
  pose proof (sum_occupancy c Hc) as Hb.
  assert (Hw : weight2 0 c = ground2 n + 2 * x).
  { apply half_eq. rewrite <- total_energy_half, He. apply Hex. }
  apply (deficit_empty (n / 2 + n mod 2 - 1) x c 0 i Hc); [|lia].
  rewrite <- (deficit_identity (n / 2 + n mod 2 - 1) c 0) by lia.
  rewrite Hs. rewrite (excess_deficit_top n x _ (proj1 Hex) Hw). lia.
Qed.

Lemma max_en_enough_witness :
  valid_input 3 (13#2) /\ binary64_exact (13#2)
  /\ occupancy_sequence [2; 0; 0; 0; 0; 1; 0; 0]
  /\ Python.sum [2; 0; 0; 0; 0; 1; 0; 0] = 3
  /\ (total_energy [2; 0; 0; 0; 0; 1; 0; 0]%Z == 13#2)%Q
  /\ max_en 3 (13#2) <= Z.of_nat 6
  /\ nth 6 [2; 0; 0; 0; 0; 1; 0; 0] 0 = 0.
Proof.
  assert (Hv : valid_input 3 (13#2)) by (vm_compute; repeat split; congruence).
  assert (Hx : binary64_exact (13#2)) by (vm_compute; reflexivity).
  assert (Hc : occupancy_sequence [2; 0; 0; 0; 0; 1; 0; 0]).
  { repeat constructor; unfold occupancy; lia. }
  assert (Hs : Python.sum [2; 0; 0; 0; 0; 1; 0; 0] = 3) by reflexivity.
  assert (He : (total_energy [2; 0; 0; 0; 0; 1; 0; 0]%Z == 13#2)%Q)
    by (vm_compute; reflexivity).
  assert (Hi : max_en 3 (13#2) <= Z.of_nat 6) by (vm_compute; congruence).
  repeat (split; [assumption|]).
  exact (max_en_enough 3 (13#2) [2; 0; 0; 0; 0; 1; 0; 0] 6 Hv Hx Hc Hs He Hi).
Defined.
